(** * GeoJSON corrector: a shallow embedding of [geojson_corrector.py]

    The development follows the layout of the Python module:

    - [Py]: the fragment of the Python runtime the module relies on
      (exceptions, JSON values, insertion-ordered dictionaries, [str.strip],
      [str.lower], anchored regular expressions, [int] and [float] of a
      string);
    - [PropertyCorrector], [GeometryCorrector], [GeoJSONCorrector]: the three
      classes of the module;
    - [Facade]: the two file-level functions;
    - [Stub]: stand-ins for the geometry engine and the JSON codec, for the
      examples;
    - [Stated]: statements of the specification, as definitions;
    - the properties proved, by component.

    Modelling conventions.

    - A Python [str] is a [string] whose characters are the code points
      U+0000..U+00FF; [str.isspace], [str.lower] and [\d] are those of
      Python on that range.
    - A Python [int] is a [Z]; [int(s)] raises [ValueError] on more than
      [sys.get_int_max_str_digits()] digits, 4300 unless the interpreter is
      told otherwise.  A Python [float] is a binary64 [spec_float];
      [float(s)] rounds to nearest, ties to even, and has no such limit.
    - Code that may raise returns [res]; [try ... except Exception] is
      [try_except].  Exceptions outside [Exception] (an interrupt) are not
      modelled.
    - A registered correction is any callable: it may raise, and what it
      raises leaves [correct_properties] uncaught.
    - A [dict] is an association list in insertion order; the dictionaries
      Python builds have distinct keys, which the statements that need it
      assume as [NoDup (keys d)].
    - The geometry engine (Shapely) and the JSON codec are interfaces
      ([GeometryEngine], [JsonCodec]); [repr] of a float or a container,
      which only the text of an unknown [type] can reach, is a parameter. *)

From Stdlib Require Import List String Ascii Bool Arith ZArith NArith Lia.
From Stdlib Require Import DecimalString.
From Stdlib Require DecimalPos.
From Stdlib Require Import Sorted.
From Stdlib Require Import Floats.SpecFloat.
Import ListNotations.

Set Implicit Arguments.
Set Warnings "-register-all".

Local Open Scope list_scope.
Local Open Scope string_scope.

(* ================================================================== *)
(** * The Python runtime fragment                                       *)
(* ================================================================== *)

Module Py.

(** ** Exceptions *)

Inductive exn_class : Type :=
| AttributeError
| TypeError
| ValueError
| JSONDecodeError
| UnicodeDecodeError
| EngineError.

(** An exception object: its class and the text [str(e)] yields. *)
Record exn : Type := mkExn { exn_cls : exn_class; exn_str : string }.

Inductive res (A : Type) : Type :=
| Ok (a : A)
| Raise (e : exn).

Arguments Ok {A} a.
Arguments Raise {A} e.

Definition bind {A B : Type} (m : res A) (k : A -> res B) : res B :=
  match m with
  | Ok a => k a
  | Raise e => Raise e
  end.

(** [try: body except Exception as e: handler e] *)
Definition try_except {A : Type} (body : res A) (handler : exn -> res A) : res A :=
  match body with
  | Ok a => Ok a
  | Raise e => handler e
  end.

(** [except json.JSONDecodeError] only handles that class. *)
Definition is_JSONDecodeError (e : exn) : bool :=
  match exn_cls e with
  | JSONDecodeError => true
  | _ => false
  end.

(** ** Values *)

Definition binary64 : Type := spec_float.

Inductive value : Type :=
| VNone
| VBool (b : bool)
| VInt (z : Z)
| VFloat (f : binary64)
| VStr (s : string)
| VList (l : list value)
| VDict (d : list (string * value)).

(** A [dict] keeps its entries in insertion order. *)
Definition dict : Type := list (string * value).

Definition keys (d : dict) : list string := map fst d.

Fixpoint dict_get (d : dict) (k : string) : option value :=
  match d with
  | [] => None
  | (k', v) :: d' => if String.eqb k' k then Some v else dict_get d' k
  end.

(** [d[k] = v]: an existing key keeps its position, a new key goes last. *)
Fixpoint dict_set (d : dict) (k : string) (v : value) : dict :=
  match d with
  | [] => [(k, v)]
  | (k', v') :: d' =>
      if String.eqb k' k then (k', v) :: d' else (k', v') :: dict_set d' k v
  end.

(** [d.get(k)] *)
Definition get (d : dict) (k : string) : value :=
  match dict_get d k with
  | Some v => v
  | None => VNone
  end.

(** [d.get(k, default)] *)
Definition get_default (d : dict) (k : string) (default : value) : value :=
  match dict_get d k with
  | Some v => v
  | None => default
  end.

Definition type_name (v : value) : string :=
  match v with
  | VNone => "NoneType"
  | VBool _ => "bool"
  | VInt _ => "int"
  | VFloat _ => "float"
  | VStr _ => "str"
  | VList _ => "list"
  | VDict _ => "dict"
  end.

(** The exception raised by [v.attr] when [v] has no such attribute. *)
Definition no_attribute (v : value) (attr : string) : exn :=
  mkExn AttributeError
        ("'" ++ type_name v ++ "' object has no attribute '" ++ attr ++ "'").

Definition string_of_nat (n : nat) : string :=
  NilEmpty.string_of_uint (Nat.to_uint n).

Definition string_of_Z (z : Z) : string :=
  NilEmpty.string_of_int (Z.to_int z).

(** [str(v)], as an f-string field formats it.  The text of a float or of a
    container is left to [repr]. *)
Definition str (repr : value -> string) (v : value) : string :=
  match v with
  | VStr s => s
  | VNone => "None"
  | VBool true => "True"
  | VBool false => "False"
  | VInt z => string_of_Z z
  | _ => repr v
  end.

(** [len(v)] *)
Definition len (v : value) : res nat :=
  match v with
  | VList l => Ok (List.length l)
  | VStr s => Ok (String.length s)
  | VDict d => Ok (List.length d)
  | _ => Raise (mkExn TypeError
                      ("object of type '" ++ type_name v ++ "' has no len()"))
  end.

Fixpoint chars (s : string) : list value :=
  match s with
  | EmptyString => []
  | String c s' => VStr (String c EmptyString) :: chars s'
  end.

(** The items [for x in v] runs over. *)
Definition iter (v : value) : res (list value) :=
  match v with
  | VList l => Ok l
  | VStr s => Ok (chars s)
  | VDict d => Ok (map VStr (keys d))
  | _ => Raise (mkExn TypeError
                      ("'" ++ type_name v ++ "' object is not iterable"))
  end.

Definition is_zero_float (f : binary64) : bool :=
  match f with
  | S754_zero _ => true
  | _ => false
  end.

(** Truth value of [v] in [if v:]. *)
Definition truthy (v : value) : bool :=
  match v with
  | VNone => false
  | VBool b => b
  | VInt z => negb (Z.eqb z 0)
  | VFloat f => negb (is_zero_float f)
  | VStr s => negb (String.eqb s "")
  | VList l => match l with [] => false | _ => true end
  | VDict d => match d with [] => false | _ => true end
  end.

(** [v == s] for a string literal [s]. *)
Definition eq_str (v : value) (s : string) : bool :=
  match v with
  | VStr s' => String.eqb s' s
  | _ => false
  end.

(** [v in (s1, s2, ...)] for string literals. *)
Definition in_strs (v : value) (l : list string) : bool :=
  existsb (eq_str v) l.

(** ** String methods *)

Definition code (c : ascii) : N := N_of_ascii c.

(** [str.isspace] on U+0000..U+00FF. *)
Definition is_space (c : ascii) : bool :=
  let n := code c in
  ((9 <=? n) && (n <=? 13) || (28 <=? n) && (n <=? 32)
   || (n =? 133) || (n =? 160))%N.

Fixpoint lstrip (s : string) : string :=
  match s with
  | EmptyString => EmptyString
  | String c s' => if is_space c then lstrip s' else s
  end.

Fixpoint rstrip (s : string) : string :=
  match s with
  | EmptyString => EmptyString
  | String c s' =>
      match rstrip s' with
      | EmptyString => if is_space c then EmptyString else String c EmptyString
      | r => String c r
      end
  end.

(** [s.strip()] *)
Definition strip (s : string) : string := rstrip (lstrip s).

Definition lower_char (c : ascii) : ascii :=
  let n := code c in
  if ((65 <=? n) && (n <=? 90)
      || (192 <=? n) && (n <=? 222) && negb (n =? 215))%N
  then ascii_of_N (n + 32)
  else c.

Fixpoint lower (s : string) : string :=
  match s with
  | EmptyString => EmptyString
  | String c s' => String (lower_char c) (lower s')
  end.

Definition in_str_list (s : string) (l : list string) : bool :=
  existsb (String.eqb s) l.

(** ** Regular expressions *)

Inductive regex : Type :=
| Void
| Eps
| Class (p : ascii -> bool)
| Alt (r1 r2 : regex)
| Cat (r1 r2 : regex)
| Star (r : regex).

Definition Opt (r : regex) : regex := Alt Eps r.
Definition Plus (r : regex) : regex := Cat r (Star r).
Definition Chr (c : ascii) : regex := Class (Ascii.eqb c).
Definition OneOf (l : list ascii) : regex :=
  Class (fun c => existsb (Ascii.eqb c) l).

(** [\d] on U+0000..U+00FF. *)
Definition is_digit (c : ascii) : bool :=
  let n := code c in ((48 <=? n) && (n <=? 57))%N.

Definition Digit : regex := Class is_digit.

Fixpoint nullable (r : regex) : bool :=
  match r with
  | Void => false
  | Eps => true
  | Class _ => false
  | Alt r1 r2 => nullable r1 || nullable r2
  | Cat r1 r2 => nullable r1 && nullable r2
  | Star _ => true
  end.

Fixpoint deriv (c : ascii) (r : regex) : regex :=
  match r with
  | Void => Void
  | Eps => Void
  | Class p => if p c then Eps else Void
  | Alt r1 r2 => Alt (deriv c r1) (deriv c r2)
  | Cat r1 r2 =>
      if nullable r1
      then Alt (Cat (deriv c r1) r2) (deriv c r2)
      else Cat (deriv c r1) r2
  | Star r1 => Cat (deriv c r1) (Star r1)
  end.

Fixpoint full_match (r : regex) (s : string) : bool :=
  match s with
  | EmptyString => nullable r
  | String c s' => full_match (deriv c r) s'
  end.

(** The string without its final newline, when it has one. *)
Fixpoint chop_newline (s : string) : option string :=
  match s with
  | EmptyString => None
  | String c EmptyString => if Ascii.eqb c "010" then Some EmptyString else None
  | String c s' => option_map (String c) (chop_newline s')
  end.

(** [re.match('^' r '$', s)] for a pattern [r] that cannot consume a newline:
    [$] matches at the end and just before a newline that ends the string. *)
Definition re_match (r : regex) (s : string) : bool :=
  full_match r s
  || match chop_newline s with
     | Some s' => full_match r s'
     | None => false
     end.

(** [^-?\d+$] *)
Definition int_pattern : regex :=
  Cat (Opt (Chr "-")) (Plus Digit).

(** [^-?\d*\.?\d+(?:[eE][+-]?\d+)?$] *)
Definition float_pattern : regex :=
  Cat (Opt (Chr "-"))
      (Cat (Star Digit)
           (Cat (Opt (Chr "."))
                (Cat (Plus Digit)
                     (Opt (Cat (OneOf ["e"; "E"]%char)
                               (Cat (Opt (OneOf ["+"; "-"]%char))
                                    (Plus Digit))))))).

(** ** [int(s)] and [float(s)] of a decimal literal *)

Definition digit_value (c : ascii) : Z := Z.of_N (code c) - 48.

(** The leading digits of [s] and what follows them. *)
Fixpoint span_digits (s : string) : string * string :=
  match s with
  | EmptyString => (EmptyString, EmptyString)
  | String c s' =>
      if is_digit c
      then let '(ds, rest) := span_digits s' in (String c ds, rest)
      else (EmptyString, s)
  end.

Fixpoint digits_value (acc : Z) (s : string) : Z :=
  match s with
  | EmptyString => acc
  | String c s' => digits_value (10 * acc + digit_value c) s'
  end.

(** A sign character in front of [s]: is it negative, and the rest. *)
Definition split_sign (s : string) : bool * string :=
  match s with
  | String "-" s' => (true, s')
  | String "+" s' => (false, s')
  | _ => (false, s)
  end.

(** The integer a signed run of decimal digits denotes. *)
Definition decimal_value (s : string) : Z :=
  let '(neg, ds) := split_sign s in
  let n := digits_value 0 (fst (span_digits ds)) in
  if neg then (- n)%Z else n.

(** The number of digits of a signed run of decimal digits; the sign does
    not count, leading zeros do. *)
Definition digit_count (s : string) : nat :=
  String.length (fst (span_digits (snd (split_sign s)))).

(** [sys.get_int_max_str_digits()], at the interpreter's default. *)
Definition int_max_str_digits : nat := 4300.

(** The exception [int(s)] raises on a text of [digits] digits, too many. *)
Definition int_too_long (digits : nat) : exn :=
  mkExn ValueError
        ("Exceeds the limit (" ++ string_of_nat int_max_str_digits
         ++ " digits) for integer string conversion: value has "
         ++ string_of_nat digits
         ++ " digits; use sys.set_int_max_str_digits() to increase the limit").

(** [int(s)], for [s] a signed run of decimal digits (what [int_pattern]
    accepts).  Python integers are unbounded, but the conversion from a
    decimal text is refused beyond [int_max_str_digits] digits. *)
Definition int_of_str (s : string) : res Z :=
  if (int_max_str_digits <? digit_count s)%nat
  then Raise (int_too_long (digit_count s))
  else Ok (decimal_value s).

(** The binary64 nearest to [num / den] (ties to even), with sign [neg]. *)
Definition nearest_binary64 (neg : bool) (num den : Z) : binary64 :=
  match num with
  | Z0 => S754_zero neg
  | _ =>
      let '(q, e, loc) := SFdiv_core_binary 53 1024 num 0 den 0 in
      binary_round_aux 53 1024 neg q e loc
  end.

(** [float(s)], for [s] a decimal literal (what [float_pattern] accepts):
    the correctly rounded binary64 value of [digits * 10 ^ exponent].  The
    digit limit of [int] does not apply. *)
Definition float_of_str (s : string) : binary64 :=
  let '(neg, s1) := split_sign s in
  let '(ip, s2) := span_digits s1 in
  let '(fp, s3) :=
    match s2 with
    | String "." r => span_digits r
    | _ => (EmptyString, s2)
    end in
  let ex :=
    match s3 with
    | String c r => if existsb (Ascii.eqb c) ["e"; "E"]%char
                    then decimal_value r else 0%Z
    | EmptyString => 0%Z
    end in
  let m := digits_value 0 (ip ++ fp) in
  let e := (ex - Z.of_nat (String.length fp))%Z in
  nearest_binary64 neg (m * 10 ^ Z.max e 0) (10 ^ Z.max (- e) 0).

(** The binary64 value [m * 2 ^ e]. *)
Definition dyadic (m e : Z) : binary64 := binary_normalize 53 1024 m e false.

End Py.

Import Py.

Declare Scope res_scope.
Delimit Scope res_scope with res.
Notation "x <- c1 ;; c2" := (bind c1 (fun x => c2))
  (at level 61, c1 at next level, right associativity) : res_scope.
Notation "' pat <- c1 ;; c2" := (bind c1 (fun x => match x with pat => c2 end))
  (at level 61, pat pattern, c1 at next level, right associativity) : res_scope.
Local Open Scope res_scope.

(* ================================================================== *)
(** * class PropertyCorrector                                           *)
(* ================================================================== *)

Module PropertyCorrector.

(** A correction takes [(key, value)] and returns
    [(corrected_value, was_corrected)], or raises. *)
Definition correction : Type := string -> value -> res (value * bool).

(** The instance state: the registered corrections, in registration order. *)
Record t : Type := mk { _corrections : list (string * correction) }.

Definition register_correction (self : t) (name : string) (func : correction) : t :=
  mk (_corrections self ++ [(name, func)])%list.

Definition _fix_numeric_string (key : string) (v : value)
  : res (value * bool) :=
  match v with
  | VStr s =>
      let stripped := strip s in
      if re_match int_pattern stripped
      then
        n <- int_of_str stripped ;;
        Ok (VInt n, true)
      else if re_match float_pattern stripped
      then Ok (VFloat (float_of_str stripped), true)
      else Ok (v, false)
  | _ => Ok (v, false)
  end.

Definition _fix_null_string (key : string) (v : value)
  : res (value * bool) :=
  match v with
  | VStr s =>
      if in_str_list (lower (strip s)) ["null"; "none"; "nil"; ""]
      then Ok (VNone, true)
      else Ok (v, false)
  | _ => Ok (v, false)
  end.

Definition _fix_boolean_string (key : string) (v : value)
  : res (value * bool) :=
  match v with
  | VStr s =>
      let lower := lower (strip s) in
      if String.eqb lower "true" then Ok (VBool true, true)
      else if String.eqb lower "false" then Ok (VBool false, true)
      else Ok (v, false)
  | _ => Ok (v, false)
  end.

Definition _fix_whitespace (key : string) (v : value)
  : res (value * bool) :=
  match v with
  | VStr s =>
      let stripped := strip s in
      if negb (String.eqb stripped s) then Ok (VStr stripped, true)
      else Ok (v, false)
  | _ => Ok (v, false)
  end.

Definition _register_default_corrections (self : t) : t :=
  let self := register_correction self "numeric_string" _fix_numeric_string in
  let self := register_correction self "null_string" _fix_null_string in
  let self := register_correction self "boolean_string" _fix_boolean_string in
  register_correction self "whitespace" _fix_whitespace.

(** [PropertyCorrector()] *)
Definition new : t := _register_default_corrections (mk []).

(** The inner loop of [correct_properties]: one key through the
    corrections still to run; the state is [(current_value, total_fixes)].
    A correction that raises ends the loop. *)
Fixpoint apply_corrections (corrections : list (string * correction))
    (key : string) (current_value : value) (total_fixes : nat)
  : res (value * nat) :=
  match corrections with
  | [] => Ok (current_value, total_fixes)
  | (name, correction_func) :: rest =>
      '(new_value, was_corrected) <- correction_func key current_value ;;
      if (was_corrected : bool)
      then apply_corrections rest key new_value (S total_fixes)
      else apply_corrections rest key current_value total_fixes
  end.

(** The outer loop, over the items still to visit; the state is
    [(corrected, total_fixes)]. *)
Fixpoint correct_items (corrections : list (string * correction))
    (items : dict) (corrected : dict) (total_fixes : nat)
  : res (dict * nat) :=
  match items with
  | [] => Ok (corrected, total_fixes)
  | (key, value) :: rest =>
      '(current_value, total_fixes) <-
        apply_corrections corrections key value total_fixes ;;
      correct_items corrections rest (dict_set corrected key current_value)
                    total_fixes
  end.

Definition correct_properties (self : t) (properties : value) : res (value * nat) :=
  match properties with
  | VNone => Ok (VNone, 0)
  | VDict d =>
      '(corrected, total_fixes) <- correct_items (_corrections self) d [] 0 ;;
      Ok (VDict corrected, total_fixes)
  | _ => Raise (no_attribute properties "items")
  end.

End PropertyCorrector.

(* ================================================================== *)
(** * class GeometryCorrector                                           *)
(* ================================================================== *)

(** The geometry engine the module imports from Shapely.  Every operation
    may raise. *)
Class GeometryEngine : Type := {
  geom : Type;
  (** [shapely.geometry.shape] *)
  shape : value -> res geom;
  (** [geom.is_valid] *)
  is_valid : geom -> res bool;
  (** [shapely.validation.explain_validity] *)
  explain_validity : geom -> res string;
  (** [shapely.make_valid] *)
  make_valid : geom -> res geom;
  (** [shapely.geometry.mapping] *)
  mapping : geom -> res value
}.

Module GeometryCorrector.

Section WithEngine.
Context {engine : GeometryEngine}.

Definition validate_geometry (geometry : value) : res (bool * string) :=
  try_except
    (geom <- shape geometry ;;
     valid <- is_valid geom ;;
     if (valid : bool) then Ok (true, "Valid")
     else
       explanation <- explain_validity geom ;;
       Ok (false, explanation))
    (fun e => Ok (false, exn_str e)).

Definition correct_geometry (geometry : value) : res (value * bool * string) :=
  try_except
    (geom <- shape geometry ;;
     valid <- is_valid geom ;;
     if (valid : bool) then Ok (geometry, false, "Geometry was already valid")
     else
       original_issue <- explain_validity geom ;;
       corrected_geom <- make_valid geom ;;
       corrected_valid <- is_valid corrected_geom ;;
       if (corrected_valid : bool)
       then
         corrected <- mapping corrected_geom ;;
         Ok (corrected, true, "Fixed: " ++ original_issue)
       else Ok (geometry, false, "Could not fix: " ++ original_issue))
    (fun e => Ok (geometry, false, "Error processing geometry: " ++ exn_str e)).

End WithEngine.

End GeometryCorrector.

(* ================================================================== *)
(** * CorrectionResult and the per-feature details                      *)
(* ================================================================== *)

(** The [details] dictionary [correct_feature] fills in. *)
Record FeatureDetail : Type := mkDetail {
  feature_index : nat;
  geometry_corrected : bool;
  geometry_message : string;
  properties_fixes : nat
}.

(** [details["geometry_corrected"] = was_corrected;
    details["geometry_message"] = message] *)
Definition set_geometry_details (d : FeatureDetail) (was_corrected : bool)
    (message : string) : FeatureDetail :=
  mkDetail (feature_index d) was_corrected message (properties_fixes d).

(** [details["properties_fixes"] = prop_fixes] *)
Definition set_properties_fixes (d : FeatureDetail) (prop_fixes : nat)
  : FeatureDetail :=
  mkDetail (feature_index d) (geometry_corrected d) (geometry_message d)
           prop_fixes.

Record CorrectionResult : Type := mkResult {
  original_feature_count : nat;
  corrected_feature_count : nat;
  geometry_issues_fixed : nat;
  property_issues_fixed : nat;
  errors : list string;
  warnings : list string;
  details : list FeatureDetail
}.

(** [CorrectionResult()] *)
Definition new_result : CorrectionResult := mkResult 0 0 0 0 [] [] [].

Definition set_original_feature_count (r : CorrectionResult) (n : nat) :=
  mkResult n (corrected_feature_count r) (geometry_issues_fixed r)
           (property_issues_fixed r) (errors r) (warnings r) (details r).

Definition set_corrected_feature_count (r : CorrectionResult) (n : nat) :=
  mkResult (original_feature_count r) n (geometry_issues_fixed r)
           (property_issues_fixed r) (errors r) (warnings r) (details r).

Definition set_geometry_issues_fixed (r : CorrectionResult) (n : nat) :=
  mkResult (original_feature_count r) (corrected_feature_count r) n
           (property_issues_fixed r) (errors r) (warnings r) (details r).

Definition set_property_issues_fixed (r : CorrectionResult) (n : nat) :=
  mkResult (original_feature_count r) (corrected_feature_count r)
           (geometry_issues_fixed r) n (errors r) (warnings r) (details r).

(** [result.errors.append(msg)] *)
Definition append_error (r : CorrectionResult) (msg : string) :=
  mkResult (original_feature_count r) (corrected_feature_count r)
           (geometry_issues_fixed r) (property_issues_fixed r)
           (errors r ++ [msg])%list (warnings r) (details r).

(** [result.details.append(d)] *)
Definition append_detail (r : CorrectionResult) (d : FeatureDetail) :=
  mkResult (original_feature_count r) (corrected_feature_count r)
           (geometry_issues_fixed r) (property_issues_fixed r)
           (errors r) (warnings r) (details r ++ [d])%list.

(** The bookkeeping both feature paths do after a successful
    [correct_feature]:
    [if details["geometry_corrected"]: result.geometry_issues_fixed += 1;
     result.property_issues_fixed += details["properties_fixes"]]. *)
Definition count_fixes (r : CorrectionResult) (d : FeatureDetail) :=
  let r :=
    if geometry_corrected d
    then set_geometry_issues_fixed r (geometry_issues_fixed r + 1)
    else r in
  set_property_issues_fixed r (property_issues_fixed r + properties_fixes d).

(* ================================================================== *)
(** * class GeoJSONCorrector                                            *)
(* ================================================================== *)

Module GeoJSONCorrector.

(** The instance state.  [geometry_corrector] has only static methods. *)
Record t : Type := mk { property_corrector : PropertyCorrector.t }.

(** [GeoJSONCorrector()] *)
Definition new : t := mk PropertyCorrector.new.

(** [for key in src: if key not in skip: dst[key] = src[key]] *)
Definition copy_other_keys (skip : list string) (src dst : dict) : dict :=
  fold_left
    (fun dst key =>
       if negb (in_str_list key skip) then dict_set dst key (get src key)
       else dst)
    (keys src) dst.

Definition geometry_type_names : list string :=
  ["Point"; "MultiPoint"; "LineString"; "MultiLineString";
   "Polygon"; "MultiPolygon"; "GeometryCollection"].

Section WithEngine.
Context {engine : GeometryEngine}.
Variable repr : value -> string.
Variable self : t.

Definition correct_feature (feature : value) (feature_index : nat)
  : res (value * FeatureDetail) :=
  let details := mkDetail feature_index false "" 0 in
  match feature with
  | VDict f =>
      let corrected_feature :=
        [("type", VStr "Feature");
         ("properties", get f "properties");
         ("geometry", get f "geometry")] in
      let corrected_feature :=
        copy_other_keys ["type"; "properties"; "geometry"] f corrected_feature in
      let geometry := get f "geometry" in
      '(corrected_feature, details) <-
        match geometry with
        | VNone => Ok (corrected_feature, details)
        | _ =>
            '(corrected_geom, was_corrected, message) <-
              GeometryCorrector.correct_geometry geometry ;;
            Ok (dict_set corrected_feature "geometry" corrected_geom,
                set_geometry_details details was_corrected message)
        end ;;
      let properties := get f "properties" in
      '(corrected_props, prop_fixes) <-
        PropertyCorrector.correct_properties (property_corrector self) properties ;;
      Ok (VDict (dict_set corrected_feature "properties" corrected_props),
          set_properties_fixes details prop_fixes)
  | _ => Raise (no_attribute feature "get")
  end.

(** The body of the loop of [_correct_feature_collection], from position
    [idx] on; the state is [(corrected_features, result)]. *)
Fixpoint correct_features (idx : nat) (features : list value)
    (corrected_features : list value) (result : CorrectionResult)
  : list value * CorrectionResult :=
  match features with
  | [] => (corrected_features, result)
  | feature :: rest =>
      let '(corrected_features, result) :=
        match correct_feature feature idx with
        | Ok (corrected_feature, details) =>
            ((corrected_features ++ [corrected_feature])%list,
             count_fixes (append_detail result details) details)
        | Raise e =>
            ((corrected_features ++ [feature])%list,
             append_error result
               ("Error processing feature " ++ string_of_nat idx ++ ": "
                ++ exn_str e))
        end in
      correct_features (S idx) rest corrected_features result
  end.

Definition _correct_feature_collection (geojson_data : dict)
    (result : CorrectionResult) : res (value * CorrectionResult) :=
  let features := get_default geojson_data "features" (VList []) in
  n <- len features ;;
  let result := set_original_feature_count result n in
  items <- iter features ;;
  let '(corrected_features, result) := correct_features 0 items [] result in
  let result := set_corrected_feature_count result (List.length corrected_features) in
  let corrected_geojson :=
    [("type", VStr "FeatureCollection");
     ("features", VList corrected_features)] in
  let corrected_geojson :=
    copy_other_keys ["type"; "features"] geojson_data corrected_geojson in
  Ok (VDict corrected_geojson, result).

Definition _correct_single_feature (geojson_data : dict)
    (result : CorrectionResult) : res (value * CorrectionResult) :=
  let result := set_original_feature_count result 1 in
  try_except
    ('(corrected_feature, details) <- correct_feature (VDict geojson_data) 0 ;;
     let result := append_detail result details in
     let result := count_fixes result details in
     let result := set_corrected_feature_count result 1 in
     Ok (corrected_feature, result))
    (fun e =>
       Ok (VDict geojson_data,
           append_error result ("Error processing feature: " ++ exn_str e))).

Definition _correct_bare_geometry (geojson_data : dict)
    (result : CorrectionResult) : res (value * CorrectionResult) :=
  let result := set_original_feature_count result 1 in
  try_except
    ('(corrected_geom, was_corrected, message) <-
       GeometryCorrector.correct_geometry (VDict geojson_data) ;;
     let result :=
       if (was_corrected : bool) then set_geometry_issues_fixed result 1
       else result in
     let result := append_detail result (mkDetail 0 was_corrected message 0) in
     let result := set_corrected_feature_count result 1 in
     Ok (corrected_geom, result))
    (fun e =>
       Ok (VDict geojson_data,
           append_error result ("Error processing geometry: " ++ exn_str e))).

Definition correct_geojson (geojson_data : value)
  : res (value * CorrectionResult) :=
  let result := new_result in
  match geojson_data with
  | VDict d =>
      let geojson_type := get d "type" in
      if eq_str geojson_type "FeatureCollection"
      then _correct_feature_collection d result
      else if eq_str geojson_type "Feature"
      then _correct_single_feature d result
      else if in_strs geojson_type geometry_type_names
      then _correct_bare_geometry d result
      else
        Ok (geojson_data,
            append_error result
              ("Unknown GeoJSON type: " ++ str repr geojson_type))
  | _ => Raise (no_attribute geojson_data "get")
  end.

End WithEngine.

End GeoJSONCorrector.

(* ================================================================== *)
(** * The file-level functions                                          *)
(* ================================================================== *)

(** What the module uses of [json] and of the built-ins. *)
Class JsonCodec : Type := {
  (** [json.loads] *)
  json_loads : string -> res value;
  (** [json.dumps(v, indent=2)] *)
  json_dumps : value -> string;
  (** [bytes.decode('utf-8')] *)
  decode_utf8 : list Byte.byte -> res string;
  (** [repr] of a float or of a container *)
  repr : value -> string
}.

(** [file_content: str | bytes] *)
Inductive content : Type :=
| Text (s : string)
| Bytes (b : list Byte.byte).

(** An entry of the list [validate_geojson_file] returns. *)
Inductive issue : Type :=
| json_error (message : string)
| geometry_invalid (feature_index : nat) (message : string).

Module Facade.

Section WithEngine.
Context {engine : GeometryEngine} {codec : JsonCodec}.

(** [if isinstance(file_content, bytes): file_content = file_content.decode('utf-8')] *)
Definition decode (file_content : content) : res string :=
  match file_content with
  | Text s => Ok s
  | Bytes b => decode_utf8 b
  end.

Definition correct_geojson_file (file_content : content)
  : res (string * CorrectionResult) :=
  file_content <- decode file_content ;;
  let result := new_result in
  match json_loads file_content with
  | Raise e =>
      if is_JSONDecodeError e
      then Ok (file_content, append_error result ("Invalid JSON: " ++ exn_str e))
      else Raise e
  | Ok geojson_data =>
      let corrector := GeoJSONCorrector.new in
      '(corrected_data, result) <-
        GeoJSONCorrector.correct_geojson repr corrector geojson_data ;;
      let corrected_json := json_dumps corrected_data in
      Ok (corrected_json, result)
  end.

(** The check both feature branches of [validate_geojson_file] make:
    [if geometry: ... if not is_valid: issues.append({...})]. *)
Definition check_geometry (geometry : value) (idx : nat) (issues : list issue)
  : res (list issue) :=
  if truthy geometry
  then
    '(is_valid, explanation) <- GeometryCorrector.validate_geometry geometry ;;
    if negb is_valid then Ok (issues ++ [geometry_invalid idx explanation])%list
    else Ok issues
  else Ok issues.

(** The loop over [enumerate(features)], from position [idx] on. *)
Fixpoint validate_features (idx : nat) (features : list value)
    (issues : list issue) : res (list issue) :=
  match features with
  | [] => Ok issues
  | feature :: rest =>
      match feature with
      | VDict f =>
          issues <- check_geometry (get f "geometry") idx issues ;;
          validate_features (S idx) rest issues
      | _ => Raise (no_attribute feature "get")
      end
  end.

Definition validate_geojson_file (file_content : content) : res (list issue) :=
  file_content <- decode file_content ;;
  let issues := [] in
  match json_loads file_content with
  | Raise e =>
      if is_JSONDecodeError e then Ok [json_error (exn_str e)] else Raise e
  | Ok geojson_data =>
      match geojson_data with
      | VDict d =>
          let geojson_type := get d "type" in
          if eq_str geojson_type "FeatureCollection"
          then
            let features := get_default d "features" (VList []) in
            features <- iter features ;;
            validate_features 0 features issues
          else if eq_str geojson_type "Feature"
          then check_geometry (get d "geometry") 0 issues
          else if in_strs geojson_type GeoJSONCorrector.geometry_type_names
          then
            '(is_valid, explanation) <-
              GeometryCorrector.validate_geometry geojson_data ;;
            if negb is_valid then Ok (issues ++ [geometry_invalid 0 explanation])%list
            else Ok issues
          else Ok issues
      | _ => Raise (no_attribute geojson_data "get")
      end
  end.

End WithEngine.

End Facade.

(* ================================================================== *)
(** * Stand-ins for the collaborators, used by the examples             *)
(* ================================================================== *)

Module Stub.

(** A geometry engine that decides by the type name alone: a [Point] and a
    [MultiPolygon] are valid; a [Polygon] is invalid and repaired into a
    [MultiPolygon]; a [LineString] is invalid and stays so; construction of
    anything else fails, as Shapely's does on a mapping without [type]
    ([None.lower()]) or with a type it does not know. *)
Definition known_type (d : dict) : bool :=
  in_strs (get d "type") ["Point"; "MultiPolygon"; "Polygon"; "LineString"].

Definition engine : GeometryEngine := {|
  geom := dict;
  shape := fun v =>
    match v with
    | VDict d =>
        if known_type d then Ok d
        else
          match get d "type" with
          | VStr _ => Raise (mkExn EngineError "Unknown geometry type")
          | ty => Raise (no_attribute ty "lower")
          end
    | _ => Raise (no_attribute v "get")
    end;
  is_valid := fun d =>
    Ok (in_strs (get d "type") ["Point"; "MultiPolygon"]);
  explain_validity := fun _ => Ok "Self-intersection";
  make_valid := fun d =>
    if eq_str (get d "type") "Polygon"
    then Ok (dict_set d "type" (VStr "MultiPolygon"))
    else Ok d;
  mapping := fun d => Ok (VDict d)
|}.

(** A correction a caller might register: the string ["x"] becomes
    ["y"]. *)
Definition rename_x : PropertyCorrector.correction :=
  fun key v =>
    match v with
    | VStr s => if String.eqb s "x" then Ok (VStr "y", true) else Ok (v, false)
    | _ => Ok (v, false)
    end.

(** Another one: it hands back [None] for every value, and reports no
    change. *)
Definition clear_quietly : PropertyCorrector.correction :=
  fun key v => Ok (VNone, false).

(** The text of [n] digits 1. *)
Fixpoint ones (n : nat) : string :=
  match n with
  | O => EmptyString
  | S n' => String "1" (ones n')
  end.

Definition quote : string := String "034" EmptyString.

(** The text [{"type": "Feature", "geometry": {}}]. *)
Definition text_empty_geometry : string :=
  "{" ++ quote ++ "type" ++ quote ++ ": " ++ quote ++ "Feature" ++ quote
  ++ ", " ++ quote ++ "geometry" ++ quote ++ ": {}}".

Definition feature_empty_geometry : value :=
  VDict [("type", VStr "Feature"); ("geometry", VDict [])].

(** The text [{"type": "Widget"}]. *)
Definition text_widget : string :=
  "{" ++ quote ++ "type" ++ quote ++ ": " ++ quote ++ "Widget" ++ quote ++ "}".

Definition widget : value := VDict [("type", VStr "Widget")].

(** A codec that knows the two documents above and rejects every other
    text. *)
Definition codec : JsonCodec := {|
  json_loads := fun s =>
    if String.eqb s text_empty_geometry then Ok feature_empty_geometry
    else if String.eqb s text_widget then Ok widget
    else Raise (mkExn JSONDecodeError
                      "Expecting value: line 1 column 1 (char 0)");
  json_dumps := fun v =>
    match v with
    | VDict [("type", VStr "Widget")] => text_widget
    | _ => "{}"
    end;
  decode_utf8 := fun _ =>
    Raise (mkExn UnicodeDecodeError "'utf-8' codec can't decode bytes");
  repr := fun _ => "[]"
|}.

End Stub.

(* ================================================================== *)
(** * The specification's statements, as definitions                    *)
(* ================================================================== *)

Module Stated.

(** One value through the chain as the specification words it: every rule
    runs, in registration order, on the output of the rule before it, and
    the count goes up once for each rule that reports a change.  The result
    is the last output and the count. *)
Fixpoint pipeline (rules : list (string * PropertyCorrector.correction))
    (key : string) (v : value) : res (value * nat) :=
  match rules with
  | [] => Ok (v, 0)
  | rule :: rest =>
      '(output, was_changed) <- snd rule key v ;;
      '(final, count) <- pipeline rest key output ;;
      Ok (final, (if (was_changed : bool) then 1 else 0) + count)
  end.

(** The chain with the rule of [correct_properties]: the output of a rule
    goes to the next rule when the rule reports a change; otherwise the
    output is dropped and the next rule gets what the rule was given. *)
Fixpoint gated_pipeline (rules : list (string * PropertyCorrector.correction))
    (key : string) (v : value) : res (value * nat) :=
  match rules with
  | [] => Ok (v, 0)
  | rule :: rest =>
      '(output, was_changed) <- snd rule key v ;;
      '(final, count) <-
        gated_pipeline rest key (if (was_changed : bool) then output else v) ;;
      Ok (final, (if was_changed then 1 else 0) + count)
  end.

(** Every key of the map through [run], in the map's order: the corrected
    map, with the keys of the input in its order, and the sum of the
    counts. *)
Fixpoint through_keys (run : string -> value -> res (value * nat))
    (d : dict) : res (dict * nat) :=
  match d with
  | [] => Ok ([], 0)
  | (key, v) :: rest =>
      '(final, count) <- run key v ;;
      '(corrected, total) <- through_keys run rest ;;
      Ok ((key, final) :: corrected, count + total)
  end.

(** What a chain [run] makes of a map: the pair
    of the corrected map and the total fix count. *)
Definition outcome (run : string -> value -> res (value * nat)) (d : dict)
  : res (value * nat) :=
  '(corrected, total) <- through_keys run d ;;
  Ok (VDict corrected, total).

(** The claim about [correct_properties] on a map, as the specification
    words it: it returns what the pipeline makes of the map. *)
Definition properties_pipeline (self : PropertyCorrector.t) (d : dict) : Prop :=
  exists corrected total,
    outcome (pipeline (PropertyCorrector._corrections self)) d
    = Ok (corrected, total)
    /\ PropertyCorrector.correct_properties self (VDict d)
       = Ok (corrected, total).

(** A rule keeps to its contract [(corrected_value, was_corrected)] when a
    value it reports unchanged is the value it was given. *)
Definition reports_faithfully (rule : PropertyCorrector.correction) : Prop :=
  forall key v out, rule key v = Ok (out, false) -> out = v.

(** A value the default chain leaves alone. *)
Definition settled (v : value) : Prop :=
  forall key n,
    PropertyCorrector.apply_corrections
      (PropertyCorrector._corrections PropertyCorrector.new) key v n
    = Ok (v, n).

Section WithEngine.
Context {engine : GeometryEngine}.
Variable repr : value -> string.
Variable self : GeoJSONCorrector.t.

(** The failure boundary of a single-Feature document as the specification
    words it: when correcting the feature raises, the document comes back
    unmodified, [original_feature_count] is 1 and the result holds the
    error "Error processing feature 0: {cause}". *)
Definition single_feature_failure (d : dict) : Prop :=
  forall e,
    GeoJSONCorrector.correct_feature self (VDict d) 0 = Raise e ->
    exists result,
      GeoJSONCorrector.correct_geojson repr self (VDict d)
      = Ok (VDict d, result)
      /\ original_feature_count result = 1
      /\ In ("Error processing feature 0: " ++ exn_str e) (errors result).

(** The issues of one geometry, raised when the engine finds it invalid. *)
Definition issues_of (geometry : value) (idx : nat) : list issue :=
  match GeometryCorrector.validate_geometry geometry with
  | Ok (false, message) => [geometry_invalid idx message]
  | _ => []
  end.

(** As the specification words it: a geometry is validated when it is
    non-null. *)
Definition issues_of_non_null (geometry : value) (idx : nat) : list issue :=
  match geometry with
  | VNone => []
  | _ => issues_of geometry idx
  end.

(** As [validate_geojson_file] has it: a geometry is validated when it is
    true in a condition. *)
Definition issues_of_truthy (geometry : value) (idx : nat) : list issue :=
  if truthy geometry then issues_of geometry idx else [].

(** The issues of the features of a collection, in order, each feature
    numbered by its position. *)
Fixpoint issues_of_features (issues_of : value -> nat -> list issue)
    (idx : nat) (features : list dict) : list issue :=
  match features with
  | [] => []
  | f :: rest =>
      (issues_of (get f "geometry") idx
       ++ issues_of_features issues_of (S idx) rest)%list
  end.

Context {codec : JsonCodec}.

(** The validation of a single-Feature document as the specification words
    it. *)
Definition feature_validation (file_content : content) : Prop :=
  forall text d,
    Facade.decode file_content = Ok text ->
    json_loads text = Ok (VDict d) ->
    get d "type" = VStr "Feature" ->
    Facade.validate_geojson_file file_content
    = Ok (issues_of_non_null (get d "geometry") 0).

End WithEngine.

End Stated.

(* ================================================================== *)
(** * Auxiliary definitions                                             *)
(* ================================================================== *)

(** A string of decimal digits only. *)
Definition all_digits (s : string) : bool :=
  forallb is_digit (list_ascii_of_string s).

(** The keys [correct_feature] sets itself, and the feature it has built
    once the other keys of the input are copied. *)
Definition feature_keys : list string := ["type"; "properties"; "geometry"].

Definition feature_skeleton (f : dict) : dict :=
  GeoJSONCorrector.copy_other_keys feature_keys f
    [("type", VStr "Feature");
     ("properties", get f "properties");
     ("geometry", get f "geometry")].

(** A collection of four entries for the examples: a polygon to repair
    with two properties to fix, a feature whose properties is a list, a
    feature with a geometry of unknown type, and a number. *)
Definition sample_collection : value :=
  VDict
    [("name", VStr "sample"); ("type", VStr "FeatureCollection");
     ("features",
      VList
        [VDict [("id", VInt 1); ("type", VStr "Feature");
                ("geometry", VDict [("type", VStr "Polygon")]);
                ("properties", VDict [("a", VStr " 12 "); ("b", VStr "None")])];
         VDict [("type", VStr "Feature"); ("properties", VList [])];
         VDict [("type", VStr "Feature");
                ("geometry", VDict [("type", VStr "Blob")]);
                ("properties", VNone)];
         VInt 3])].

(** A geometry [validate_geojson_file] does not pass over: null, or true in
    a condition. *)
Definition checked_geometry (g : value) : Prop :=
  g = VNone \/ truthy g = true.

(** The issue [geometry_invalid] of a position and a message. *)
Definition invalid_at (p : nat * string) : issue :=
  geometry_invalid (fst p) (snd p).

(** Documents for the examples of the file-level functions, each with a
    text that stands for it, and a codec that knows these texts. *)
Module Sample.

Definition point_feature : value :=
  VDict [("type", VStr "Feature");
         ("geometry", VDict [("type", VStr "Point")]);
         ("properties", VDict [("a", VStr "1")])].

Definition shapes : value :=
  VDict [("type", VStr "FeatureCollection");
         ("features",
          VList [VDict [("type", VStr "Feature");
                        ("geometry", VDict [("type", VStr "Point")])];
                 VDict [("type", VStr "Feature");
                        ("geometry", VDict [("type", VStr "Polygon")])];
                 VDict [("type", VStr "Feature"); ("geometry", VNone)];
                 VDict [("type", VStr "Feature");
                        ("geometry", VDict [("type", VStr "LineString")])]])].

Definition mixed : value :=
  VDict [("type", VStr "FeatureCollection");
         ("features",
          VList [VDict [("type", VStr "Feature");
                        ("geometry", VDict [("type", VStr "Polygon")])];
                 VInt 3])].

Definition codec : JsonCodec := {|
  json_loads := fun s =>
    if String.eqb s "point feature" then Ok point_feature
    else if String.eqb s "shapes" then Ok shapes
    else if String.eqb s "mixed" then Ok mixed
    else if String.eqb s "[]" then Ok (VList [])
    else Raise (mkExn JSONDecodeError
                      "Expecting value: line 1 column 1 (char 0)");
  json_dumps := fun _ => "{}";
  decode_utf8 := fun _ =>
    Raise (mkExn UnicodeDecodeError "'utf-8' codec can't decode bytes");
  repr := fun _ => "[]"
|}.

End Sample.

(** ** [app.py]: the name of the corrected file *)

Module App.

(** [s.endswith(suffix)] *)
Fixpoint endswith (s suffix : string) : bool :=
  if String.eqb s suffix then true
  else match s with
       | EmptyString => false
       | String _ s' => endswith s' suffix
       end.

(** [s.replace(old, new)] for a non-empty [old], from left to right over
    the occurrences of [old] that do not overlap; [skip] counts the
    characters still to pass of the occurrence just replaced. *)
Fixpoint replace_from (skip : nat) (s old new : string) : string :=
  match s with
  | EmptyString => EmptyString
  | String c s' =>
      match skip with
      | S k => replace_from k s' old new
      | O =>
          if String.prefix old s
          then new ++ replace_from (String.length old - 1) s' old new
          else String c (replace_from 0 s' old new)
      end
  end.

Definition replace (s old new : string) : string := replace_from 0 s old new.

(** The name [main] gives the download, from the name of the upload. *)
Definition corrected_filename (original_filename : string) : string :=
  if endswith original_filename ".geojson"
  then replace original_filename ".geojson" "_corrected.geojson"
  else if endswith original_filename ".json"
  then replace original_filename ".json" "_corrected.json"
  else original_filename ++ "_corrected.geojson".

End App.

(** A string the numeric rule hands to [int] with more digits than [int]
    takes. *)
Definition overlong (v : value) : bool :=
  match v with
  | VStr s =>
      re_match int_pattern (strip s)
      && (int_max_str_digits <? digit_count (strip s))%nat
  | _ => false
  end.

(** Is the value a mapping? *)
Definition is_dict (v : value) : bool :=
  match v with
  | VDict _ => true
  | _ => false
  end.

(** Can [len] and [for] take the value: a list, a string or a mapping? *)
Definition is_sized (v : value) : bool :=
  match v with
  | VList _ | VStr _ | VDict _ => true
  | _ => false
  end.

(* ================================================================== *)
(** * Tactics                                                           *)
(* ================================================================== *)

Ltac break_premises :=
  repeat match goal with
         | H : _ \/ _ |- _ => destruct H
         | H : exists _, _ |- _ => destruct H
         | H : _ /\ _ |- _ => destruct H
         end.

(** Every case of [correct_geometry] is settled the same way once the engine
    calls on its path are known: the result is read off, and a premise about
    another path contradicts the calls at hand. *)
Ltac settle_geometry :=
  do 3 eexists; split; [reflexivity|];
  repeat split; intros; break_premises; congruence.

(* ================================================================== *)
(** * Dictionaries                                                      *)
(* ================================================================== *)

Section Dictionaries.

Lemma dict_get_set_eq (d : dict) k v : dict_get (dict_set d k v) k = Some v.
Proof.
  induction d as [|[k' v'] d IH]; simpl.
  - now rewrite String.eqb_refl.
  - destruct (String.eqb k' k) eqn:E; simpl; rewrite E; [reflexivity|exact IH].
Qed.

Lemma dict_get_set_neq (d : dict) k k' v :
  k <> k' -> dict_get (dict_set d k v) k' = dict_get d k'.
Proof.
  intro Hne. induction d as [|[k0 v0] d IH]; simpl.
  - apply String.eqb_neq in Hne. now rewrite Hne.
  - destruct (String.eqb k0 k) eqn:E; simpl.
    + apply String.eqb_eq in E. subst k0.
      apply String.eqb_neq in Hne. now rewrite Hne.
    + now rewrite IH.
Qed.

Lemma dict_get_in (d : dict) k :
  In k (keys d) -> dict_get d k = Some (get d k).
Proof.
  unfold get. induction d as [|[k' v'] d IH]; simpl; [tauto|].
  intros [->|Hin].
  - now rewrite String.eqb_refl.
  - destruct (String.eqb k' k); [reflexivity|auto].
Qed.

Lemma dict_get_not_in (d : dict) k : ~ In k (keys d) -> dict_get d k = None.
Proof.
  induction d as [|[k' v'] d IH]; simpl; [reflexivity|].
  intro Hn. destruct (String.eqb_spec k' k); [tauto|]. apply IH. tauto.
Qed.

Lemma keys_dict_set_fresh (d : dict) k v :
  ~ In k (keys d) -> dict_set d k v = (d ++ [(k, v)])%list.
Proof.
  induction d as [|[k' v'] d IH]; simpl; [reflexivity|].
  intro Hn. destruct (String.eqb_spec k' k); [tauto|].
  rewrite IH by tauto. reflexivity.
Qed.

Lemma keys_dict_set (d : dict) k v :
  keys (dict_set d k v)
  = if in_str_list k (keys d) then keys d else (keys d ++ [k])%list.
Proof.
  unfold in_str_list.
  induction d as [|[k' v'] d IH]; simpl; [reflexivity|].
  rewrite (String.eqb_sym k k').
  destruct (String.eqb k' k) eqn:E; simpl; [reflexivity|].
  unfold keys in *. rewrite IH. now destruct (existsb _ _).
Qed.

Lemma in_str_list_In s l : in_str_list s l = true <-> In s l.
Proof.
  unfold in_str_list. rewrite existsb_exists. split.
  - intros (x & Hx & E). apply String.eqb_eq in E. now subst.
  - intro H. exists s. split; [exact H|apply String.eqb_refl].
Qed.

Lemma in_str_list_not_In s l : in_str_list s l = false <-> ~ In s l.
Proof.
  rewrite <- in_str_list_In. now destruct (in_str_list s l).
Qed.

Import GeoJSONCorrector.

(** What the copying loop leaves under a key, after any prefix [ks] of the
    source's keys. *)
Lemma copy_loop_get (skip : list string) (src : dict) :
  forall (ks : list string) (dst : dict) (k : string),
    dict_get
      (fold_left
         (fun dst key =>
            if negb (in_str_list key skip)
            then dict_set dst key (get src key) else dst)
         ks dst) k
    = if in_str_list k skip then dict_get dst k
      else if in_str_list k ks then Some (get src k)
      else dict_get dst k.
Proof.
  induction ks as [|k0 ks IH]; intros dst k; simpl.
  - now destruct (in_str_list k skip).
  - rewrite IH. destruct (in_str_list k skip) eqn:Hk.
    + destruct (in_str_list k0 skip) eqn:Hk0; simpl; [reflexivity|].
      apply dict_get_set_neq. intros ->. congruence.
    + destruct (in_str_list k ks) eqn:Hks.
      * now rewrite orb_true_r.
      * rewrite orb_false_r. destruct (String.eqb_spec k k0) as [<-|Hne].
        -- rewrite Hk. simpl. apply dict_get_set_eq.
        -- destruct (in_str_list k0 skip); simpl; [reflexivity|].
           apply dict_get_set_neq. congruence.
Qed.

(** A key outside [skip] is copied: the output has it exactly when the
    source has it, with the same value. *)
Lemma copy_other_keys_get (skip : list string) (src dst : dict) k :
  in_str_list k skip = false ->
  (forall k', in_str_list k' skip = false -> dict_get dst k' = None) ->
  dict_get (copy_other_keys skip src dst) k = dict_get src k.
Proof.
  intros Hk Hdst. unfold copy_other_keys. rewrite copy_loop_get, Hk.
  destruct (in_str_list k (keys src)) eqn:Hin.
  - apply in_str_list_In in Hin. now rewrite dict_get_in.
  - apply in_str_list_not_In in Hin.
    rewrite (@dict_get_not_in src k Hin). now apply Hdst.
Qed.

(** A key of [skip] keeps what the output held before the loop. *)
Lemma copy_other_keys_skip (skip : list string) (src dst : dict) k :
  in_str_list k skip = true ->
  dict_get (copy_other_keys skip src dst) k = dict_get dst k.
Proof.
  intro Hk. unfold copy_other_keys. now rewrite copy_loop_get, Hk.
Qed.

End Dictionaries.

(* ================================================================== *)
(** * Properties of the property corrections                            *)
(* ================================================================== *)

Section PropertyChain.

Import PropertyCorrector.

(** ** [strip] is idempotent *)

Lemma rstrip_idem s : rstrip (rstrip s) = rstrip s.
Proof.
  induction s as [|c s IH]; simpl; [reflexivity|].
  destruct (rstrip s) as [|a r] eqn:E.
  - destruct (is_space c) eqn:Hc; simpl; [reflexivity|now rewrite Hc].
  - change (rstrip (String c (String a r))) with
      (match rstrip (String a r) with
       | EmptyString => if is_space c then EmptyString else String c EmptyString
       | r' => String c r'
       end).
    now rewrite IH.
Qed.

Lemma lstrip_head s :
  lstrip s = EmptyString
  \/ exists c t, lstrip s = String c t /\ is_space c = false.
Proof.
  induction s as [|c s IH]; simpl; [now left|].
  destruct (is_space c) eqn:Hc; [exact IH|]. right. now exists c, s.
Qed.

Lemma rstrip_head c t :
  is_space c = false -> exists t', rstrip (String c t) = String c t'.
Proof.
  intro Hc. simpl. destruct (rstrip t); rewrite ?Hc; eauto.
Qed.

Lemma strip_idem s : strip (strip s) = strip s.
Proof.
  unfold strip. destruct (lstrip_head s) as [->|(c & t & -> & Hc)].
  - reflexivity.
  - destruct (@rstrip_head c t Hc) as [t' E]. rewrite E.
    change (lstrip (String c t')) with
      (if is_space c then lstrip t' else String c t').
    rewrite Hc, <- E. apply rstrip_idem.
Qed.

(** ** The registered chain as a pipeline *)

(** The inner loop is the gated pipeline; the count it starts from only
    shifts the count it ends with. *)
Lemma apply_corrections_gated (rules : list (string * correction)) key :
  forall v n,
    apply_corrections rules key v n
    = ('(final, count) <- Stated.gated_pipeline rules key v ;;
       Ok (final, n + count)).
Proof.
  induction rules as [|[name func] rules IH]; intros v n; simpl.
  - now rewrite Nat.add_0_r.
  - destruct (func key v) as [[out [|]]|e]; simpl; [| |reflexivity];
      rewrite IH;
      match goal with
      | |- context [Stated.gated_pipeline rules key ?x] =>
          destruct (Stated.gated_pipeline rules key x) as [[f c]|e]
      end; simpl; try reflexivity.
    do 2 f_equal. lia.
Qed.

(** The loop over a list of rules run one after the other. *)
Lemma apply_corrections_app (l1 l2 : list (string * correction)) key :
  forall v n,
    apply_corrections (l1 ++ l2) key v n
    = ('(current_value, total_fixes) <- apply_corrections l1 key v n ;;
       apply_corrections l2 key current_value total_fixes).
Proof.
  induction l1 as [|[name func] l1 IH]; intros v n; simpl; [reflexivity|].
  destruct (func key v) as [[out [|]]|e]; simpl; [apply IH|apply IH|reflexivity].
Qed.

(** The outer loop appends, to the map it starts from, the outcome of each
    key in turn. *)
Lemma correct_items_through_keys (rules : list (string * correction)) :
  forall d corrected n,
    NoDup (keys corrected ++ keys d) ->
    correct_items rules d corrected n
    = ('(c, t) <- Stated.through_keys (Stated.gated_pipeline rules) d ;;
       Ok ((corrected ++ c)%list, n + t)).
Proof.
  induction d as [|[k v] d IH]; intros corrected n Hnd; simpl.
  - now rewrite app_nil_r, Nat.add_0_r.
  - rewrite apply_corrections_gated.
    destruct (Stated.gated_pipeline rules k v) as [[f c]|e]; simpl;
      [|reflexivity].
    assert (Hfresh : ~ In k (keys corrected)).
    { intro Hin. apply NoDup_remove_2 in Hnd. apply Hnd.
      apply in_or_app. now left. }
    rewrite keys_dict_set_fresh by exact Hfresh.
    rewrite IH.
    + destruct (Stated.through_keys _ d) as [[c' t]|e]; simpl;
        [|reflexivity].
      rewrite <- app_assoc. simpl. do 2 f_equal. lia.
    + unfold keys in *. rewrite map_app, <- app_assoc. exact Hnd.
Qed.

Lemma correct_properties_outcome (self : t) (d : dict) :
  NoDup (keys d) ->
  correct_properties self (VDict d)
  = Stated.outcome (Stated.gated_pipeline (_corrections self)) d.
Proof.
  intro Hnd. unfold correct_properties, Stated.outcome.
  rewrite (@correct_items_through_keys (_corrections self) d [] 0 Hnd).
  now destruct (Stated.through_keys _ d) as [[c t]|e].
Qed.

(** With rules that keep to their contract no output is ever dropped. *)
Lemma faithful_pipeline (rules : list (string * correction)) :
  Forall (fun rule => Stated.reports_faithfully (snd rule)) rules ->
  forall key v, Stated.gated_pipeline rules key v = Stated.pipeline rules key v.
Proof.
  induction 1 as [|rule rules Hrule Hrules IH]; intros key v; simpl;
    [reflexivity|].
  destruct (snd rule key v) as [[out [|]]|e] eqn:E; simpl;
    [now rewrite IH| |reflexivity].
  rewrite (Hrule key v out E). now rewrite IH.
Qed.

Lemma through_keys_ext (run1 run2 : string -> value -> res (value * nat)) :
  (forall key v, run1 key v = run2 key v) ->
  forall d, Stated.through_keys run1 d = Stated.through_keys run2 d.
Proof.
  intros Hrun. induction d as [|[k v] d IH]; simpl; [reflexivity|].
  now rewrite Hrun, IH.
Qed.

Lemma through_keys_keys (run : string -> value -> res (value * nat)) :
  forall d c t, Stated.through_keys run d = Ok (c, t) -> keys c = keys d.
Proof.
  induction d as [|[k v] d IH]; intros c t; simpl.
  - intro H. now injection H as <- _.
  - destruct (run k v) as [[f n]|e]; simpl; [|discriminate].
    destruct (Stated.through_keys run d) as [[c' t']|e] eqn:E; simpl;
      [|discriminate].
    intro H. injection H as <- _. simpl. f_equal. exact (IH _ _ eq_refl).
Qed.

(** C2 (as amended).  On a null map [correct_properties] returns
    [(None, 0)].  On a mapping it visits the keys in the map's order and
    runs every registered rule in registration order, where the output of a
    rule is fed to the next rule when the rule reports a change and is
    dropped otherwise (the next rule then gets what the rule was given);
    the fix count goes up once for each rule application that reports a
    change, summed over the keys; a rule that raises ends the run, and
    [correct_properties] raises what the rule raised.  What it returns has
    the keys of the input, in the input's order.  With rules that hand back
    their input whenever they report no change, this is the pipeline in
    which every rule is fed the output of the rule before it. *)
Theorem C2_correct_properties_pipeline (self : t) :
  correct_properties self VNone = Ok (VNone, 0)
  /\ (forall d,
         NoDup (keys d) ->
         correct_properties self (VDict d)
         = Stated.outcome (Stated.gated_pipeline (_corrections self)) d)
  /\ (forall d out n,
         NoDup (keys d) ->
         correct_properties self (VDict d) = Ok (out, n) ->
         exists corrected, out = VDict corrected /\ keys corrected = keys d)
  /\ (forall d,
         NoDup (keys d) ->
         Forall (fun rule => Stated.reports_faithfully (snd rule))
                (_corrections self) ->
         correct_properties self (VDict d)
         = Stated.outcome (Stated.pipeline (_corrections self)) d).
Proof.
  split; [reflexivity|]. split; [|split].
  - intros d Hnd. now apply correct_properties_outcome.
  - intros d out n Hnd. rewrite (@correct_properties_outcome self d Hnd).
    unfold Stated.outcome.
    destruct (Stated.through_keys _ d) as [[c t]|e] eqn:E; simpl;
      [|discriminate].
    intro H. injection H as <- _. exists c. split; [reflexivity|].
    exact (through_keys_keys _ _ E).
  - intros d Hnd Hf. rewrite (@correct_properties_outcome self d Hnd).
    unfold Stated.outcome.
    now rewrite (through_keys_ext _ _ (faithful_pipeline Hf)).
Qed.

(** ** The default chain *)

Lemma default_corrections_faithful :
  Forall (fun rule => Stated.reports_faithfully (snd rule)) (_corrections new).
Proof.
  repeat constructor; intros key v out; simpl.
  - unfold _fix_numeric_string. destruct v; try congruence.
    destruct (re_match int_pattern _).
    + unfold bind. destruct (int_of_str _); discriminate.
    + destruct (re_match float_pattern _); congruence.
  - unfold _fix_null_string. destruct v; try congruence.
    destruct (in_str_list _ _); congruence.
  - unfold _fix_boolean_string. destruct v; try congruence.
    destruct (String.eqb _ "true"); [discriminate|].
    destruct (String.eqb _ "false"); congruence.
  - unfold _fix_whitespace. destruct v; try congruence.
    destruct (negb _); congruence.
Qed.

(** The default chain on a string, one test after the other. *)
Lemma default_chain_str key s n :
  apply_corrections (_corrections new) key (VStr s) n
  = if re_match int_pattern (strip s)
    then (z <- int_of_str (strip s) ;; Ok (VInt z, S n))
    else if re_match float_pattern (strip s)
    then Ok (VFloat (float_of_str (strip s)), S n)
    else if in_str_list (lower (strip s)) ["null"; "none"; "nil"; ""]
    then Ok (VNone, S n)
    else if String.eqb (lower (strip s)) "true" then Ok (VBool true, S n)
    else if String.eqb (lower (strip s)) "false" then Ok (VBool false, S n)
    else if negb (String.eqb (strip s) s) then Ok (VStr (strip s), S n)
    else Ok (VStr s, n).
Proof.
  cbv [apply_corrections new _register_default_corrections
       register_correction _corrections app bind
       _fix_numeric_string _fix_null_string _fix_boolean_string
       _fix_whitespace].
  destruct (re_match int_pattern (strip s)).
  { now destruct (int_of_str (strip s)). }
  destruct (re_match float_pattern (strip s)); [reflexivity|].
  cbv beta iota.
  destruct (in_str_list (lower (strip s)) _); [reflexivity|].
  cbv beta iota.
  destruct (String.eqb (lower (strip s)) "true"); [reflexivity|].
  destruct (String.eqb (lower (strip s)) "false"); [reflexivity|].
  cbv beta iota.
  destruct (negb (String.eqb (strip s) s)); reflexivity.
Qed.

(** The default chain passes over whatever is not a string. *)
Lemma default_chain_other key v n :
  (forall s, v <> VStr s) ->
  apply_corrections (_corrections new) key v n = Ok (v, n).
Proof.
  intro Hv. destruct v; try reflexivity. now destruct (Hv s).
Qed.

(** [int] judges a text by its number of digits alone. *)
Lemma int_of_str_short s :
  digit_count s <= int_max_str_digits -> int_of_str s = Ok (decimal_value s).
Proof.
  intro H. unfold int_of_str.
  destruct (Nat.ltb_spec int_max_str_digits (digit_count s)) as [Hlt|_];
    [|reflexivity].
  exfalso. exact (Nat.lt_irrefl _ (Nat.lt_le_trans _ _ _ Hlt H)).
Qed.

Lemma int_of_str_long s :
  int_max_str_digits < digit_count s ->
  int_of_str s = Raise (int_too_long (digit_count s)).
Proof.
  intro H. unfold int_of_str.
  destruct (Nat.ltb_spec int_max_str_digits (digit_count s)) as [_|Hle];
    [reflexivity|].
  exfalso. exact (Nat.lt_irrefl _ (Nat.lt_le_trans _ _ _ H Hle)).
Qed.

(** The one way the default chain raises: on a string that reads as an
    integer of too many digits. *)
Lemma default_chain_cases key v n :
  overlong v = false
  /\ (exists v' n', apply_corrections (_corrections new) key v n = Ok (v', n'))
  \/ exists s,
      v = VStr s /\ overlong v = true
      /\ apply_corrections (_corrections new) key v n
         = Raise (int_too_long (digit_count (strip s))).
Proof.
  destruct v as [| | | |s| |];
    try (left; split; [reflexivity|]; do 2 eexists; reflexivity).
  rewrite default_chain_str. unfold overlong.
  destruct (re_match int_pattern (strip s)).
  { unfold int_of_str, bind.
    destruct (Nat.ltb int_max_str_digits (digit_count (strip s))).
    - right. exists s. now repeat split.
    - left. split; [reflexivity|]. now eauto. }
  left. split; [reflexivity|].
  destruct (re_match float_pattern (strip s)); [now eauto|].
  destruct (in_str_list (lower (strip s)) _); [now eauto|].
  destruct (String.eqb (lower (strip s)) "true"); [now eauto|].
  destruct (String.eqb (lower (strip s)) "false"); [now eauto|].
  destruct (negb (String.eqb (strip s) s)); now eauto.
Qed.

Lemma default_chain_settles key v n v' n' :
  apply_corrections (_corrections new) key v n = Ok (v', n') ->
  Stated.settled v'.
Proof.
  destruct v as [| | | |s| |];
    try (rewrite default_chain_other by (intro; discriminate);
         intro H; injection H as <- _; intros k m; reflexivity).
  rewrite default_chain_str.
  destruct (re_match int_pattern (strip s)) eqn:E1.
  { unfold bind. destruct (int_of_str (strip s)); [|discriminate].
    intro H; injection H as <- _; intros k m; reflexivity. }
  destruct (re_match float_pattern (strip s)) eqn:E2;
    [intro H; injection H as <- _; intros k m; reflexivity|].
  destruct (in_str_list (lower (strip s)) _) eqn:E3;
    [intro H; injection H as <- _; intros k m; reflexivity|].
  destruct (String.eqb (lower (strip s)) "true") eqn:E4;
    [intro H; injection H as <- _; intros k m; reflexivity|].
  destruct (String.eqb (lower (strip s)) "false") eqn:E5;
    [intro H; injection H as <- _; intros k m; reflexivity|].
  destruct (negb (String.eqb (strip s) s)) eqn:E6;
    intro H; injection H as <- _; intros k m; rewrite default_chain_str.
  - rewrite strip_idem, E1, E2, E3, E4, E5, String.eqb_refl. reflexivity.
  - now rewrite E1, E2, E3, E4, E5, E6.
Qed.

Lemma dict_set_NoDup (d : dict) k v :
  NoDup (keys d) -> NoDup (keys (dict_set d k v)).
Proof.
  intro Hnd. rewrite keys_dict_set.
  destruct (in_str_list k (keys d)) eqn:E; [exact Hnd|].
  apply in_str_list_not_In in E. apply NoDup_app.
  - exact Hnd.
  - repeat constructor. simpl. tauto.
  - intros a Ha [<-|[]]. contradiction.
Qed.

Lemma dict_set_Forall (P : value -> Prop) (d : dict) k v :
  Forall (fun kv => P (snd kv)) d -> P v ->
  Forall (fun kv => P (snd kv)) (dict_set d k v).
Proof.
  intros Hd Hv. induction Hd as [|[k' v'] d Hkv Hd IH]; simpl.
  - now constructor.
  - destruct (String.eqb k' k); constructor; assumption.
Qed.

(** A property of every output of the chain holds of every value of the
    corrected map. *)
Lemma correct_items_Forall (P : value -> Prop)
    (rules : list (string * correction)) :
  (forall key v n v' n',
      apply_corrections rules key v n = Ok (v', n') -> P v') ->
  forall d corrected n out n',
    Forall (fun kv => P (snd kv)) corrected ->
    correct_items rules d corrected n = Ok (out, n') ->
    Forall (fun kv => P (snd kv)) out.
Proof.
  intro HP.
  induction d as [|[k v] d IH]; intros corrected n out n' Hc; simpl.
  - intro H. now injection H as <- _.
  - destruct (apply_corrections rules k v n) as [[v1 n1]|e] eqn:E; simpl;
      [|discriminate].
    apply IH. apply dict_set_Forall; [exact Hc|]. exact (HP _ _ _ _ _ E).
Qed.

Lemma correct_items_NoDup (rules : list (string * correction)) :
  forall d corrected n out n',
    NoDup (keys corrected) ->
    correct_items rules d corrected n = Ok (out, n') ->
    NoDup (keys out).
Proof.
  induction d as [|[k v] d IH]; intros corrected n out n' Hc; simpl.
  - intro H. now injection H as <- _.
  - destruct (apply_corrections rules k v n) as [[v1 n1]|e]; simpl;
      [|discriminate].
    apply IH. now apply dict_set_NoDup.
Qed.

(** The output of the outer loop has distinct keys and settled values. *)
Lemma correct_items_settles d corrected n out n' :
  NoDup (keys corrected) ->
  Forall (fun kv => Stated.settled (snd kv)) corrected ->
  correct_items (_corrections new) d corrected n = Ok (out, n') ->
  NoDup (keys out) /\ Forall (fun kv => Stated.settled (snd kv)) out.
Proof.
  intros Hnd Hs H. split.
  - exact (correct_items_NoDup _ _ _ _ Hnd H).
  - exact (@correct_items_Forall Stated.settled (_corrections new)
             default_chain_settles d corrected n out n' Hs H).
Qed.

(** On settled values the outer loop rebuilds its input and fixes
    nothing. *)
Lemma correct_items_settled :
  forall d corrected n,
    Forall (fun kv => Stated.settled (snd kv)) d ->
    NoDup (keys corrected ++ keys d) ->
    correct_items (_corrections new) d corrected n
    = Ok ((corrected ++ d)%list, n).
Proof.
  induction d as [|[k v] d IH]; intros corrected n Hs Hnd;
    cbn [correct_items].
  - now rewrite app_nil_r.
  - inversion Hs as [|? ? Hv Hd]; subst. simpl in Hv. rewrite Hv.
    cbn [bind].
    assert (Hfresh : ~ In k (keys corrected)).
    { intro Hin. apply NoDup_remove_2 in Hnd. apply Hnd.
      apply in_or_app. now left. }
    rewrite keys_dict_set_fresh by exact Hfresh.
    rewrite IH; [now rewrite <- app_assoc|exact Hd|].
    unfold keys in *. rewrite map_app, <- app_assoc. exact Hnd.
Qed.

(** The outer loop with the default rules raises at the first string that
    reads as an integer of too many digits, and returns when there is
    none. *)
Lemma correct_items_new_returns :
  forall d corrected n,
    Forall (fun kv => overlong (snd kv) = false) d ->
    exists out n', correct_items (_corrections new) d corrected n = Ok (out, n').
Proof.
  induction d as [|[k v] d IH]; intros corrected n Hd; cbn [correct_items].
  - now eauto.
  - inversion Hd as [|? ? Hv Hrest]; subst. simpl in Hv.
    destruct (default_chain_cases k v n)
      as [(_ & v' & n' & ->)|(s & _ & Hlong & _)]; [|congruence].
    cbn [bind]. now apply IH.
Qed.

Lemma correct_items_new_raises_at k s post :
  overlong (VStr s) = true ->
  forall pre corrected n,
    Forall (fun kv => overlong (snd kv) = false) pre ->
    correct_items (_corrections new) (pre ++ (k, VStr s) :: post)%list
                  corrected n
    = Raise (int_too_long (digit_count (strip s))).
Proof.
  intro Hlong.
  induction pre as [|[k0 v0] pre IH]; intros corrected n Hpre;
    cbn [app correct_items].
  - destruct (default_chain_cases k (VStr s) n)
      as [(Hshort & _)|(s' & Heq & _ & ->)]; [congruence|].
    injection Heq as <-. reflexivity.
  - inversion Hpre as [|? ? Hv Hrest]; subst. simpl in Hv.
    destruct (default_chain_cases k0 v0 n)
      as [(_ & v' & n' & ->)|(s' & _ & Hl & _)]; [|congruence].
    cbn [bind]. now apply IH.
Qed.

Lemma first_overlong :
  forall d : dict,
    Forall (fun kv => overlong (snd kv) = false) d
    \/ exists pre k s post,
        d = (pre ++ (k, VStr s) :: post)%list
        /\ Forall (fun kv => overlong (snd kv) = false) pre
        /\ overlong (VStr s) = true.
Proof.
  induction d as [|[k v] d IH]; [left; constructor|].
  destruct (overlong v) eqn:Hv.
  - right. destruct v as [| | | |s| |]; try discriminate.
    exists [], k, s, d. repeat split; [constructor|exact Hv].
  - destruct IH as [Hd|(pre & k' & s & post & -> & Hpre & Hs)].
    + left. now constructor.
    + right. exists ((k, v) :: pre), k', s, post.
      repeat split; [now constructor|exact Hs].
Qed.


Lemma correct_properties_new_raises (p : dict) (e : exn) :
  correct_properties new (VDict p) = Raise e <->
  exists pre k s post,
    p = (pre ++ (k, VStr s) :: post)%list
    /\ Forall (fun kv => overlong (snd kv) = false) pre
    /\ overlong (VStr s) = true
    /\ e = int_too_long (digit_count (strip s)).
Proof.
  unfold correct_properties. split.
  - destruct (first_overlong p)
      as [Hp|(pre & k & s & post & -> & Hpre & Hs)].
    + destruct (correct_items_new_returns [] 0 Hp) as (out & n & ->).
      discriminate.
    + rewrite (@correct_items_new_raises_at k s post Hs pre [] 0 Hpre).
      cbn [bind]. intro H. injection H as <-.
      exists pre, k, s, post. now repeat split.
  - intros (pre & k & s & post & -> & Hpre & Hs & ->).
    now rewrite (@correct_items_new_raises_at k s post Hs pre [] 0 Hpre).
Qed.

(** C5.  [correct_properties] with the default rules is idempotent on its
    output: applied to the map a first application returned, it returns
    that map again with a fix count of 0. *)
Theorem C5_correct_properties_idempotent (properties out : value) (n : nat) :
  correct_properties new properties = Ok (out, n) ->
  correct_properties new out = Ok (out, 0).
Proof.
  unfold correct_properties.
  destruct properties as [| | | | | |d]; try discriminate.
  - intro H. injection H as <- _. reflexivity.
  - destruct (correct_items (_corrections new) d [] 0)
      as [[corrected fixes]|e] eqn:E; cbn [bind]; [|discriminate].
    intro H. injection H as <- _.
    destruct (@correct_items_settles d [] 0 corrected fixes) as [Hnd Hs];
      [constructor|constructor|exact E|].
    now rewrite (@correct_items_settled corrected [] 0 Hs Hnd).
Qed.

End PropertyChain.

(** The example of the specification: [{"a": "5"}] corrects to [{"a": 5}]
    with one fix, and correcting [{"a": 5}] fixes nothing. *)
Lemma C5_correct_properties_idempotent_witness :
  PropertyCorrector.correct_properties PropertyCorrector.new
    (VDict [("a", VStr "5")]) = Ok (VDict [("a", VInt 5)], 1)
  /\ PropertyCorrector.correct_properties PropertyCorrector.new
       (VDict [("a", VInt 5)]) = Ok (VDict [("a", VInt 5)], 0).
Proof.
  split; [vm_compute; reflexivity|].
  apply (@C5_correct_properties_idempotent (VDict [("a", VStr "5")])
           (VDict [("a", VInt 5)]) 1).
  vm_compute; reflexivity.
Defined.

Lemma rename_x_faithful : Stated.reports_faithfully Stub.rename_x.
Proof.
  intros key v out. unfold Stub.rename_x. destruct v; try congruence.
  destruct (String.eqb s "x"); congruence.
Qed.

(** Registering a faithful rule keeps the chain faithful. *)
Lemma register_correction_faithful self name func :
  Forall (fun rule => Stated.reports_faithfully (snd rule))
         (PropertyCorrector._corrections self) ->
  Stated.reports_faithfully func ->
  Forall (fun rule => Stated.reports_faithfully (snd rule))
         (PropertyCorrector._corrections
            (PropertyCorrector.register_correction self name func)).
Proof.
  intros Hself Hfunc. simpl. apply Forall_app. split; [exact Hself|].
  constructor; [exact Hfunc|constructor].
Qed.

(** The default chain with one more rule registered: [" x "] is first
    trimmed by the whitespace rule and its output then renamed by the new
    rule, two fixes on one key; [" 5 "] is one fix more.  The rules keep to
    their contract, so the pipeline that feeds every output forward gives
    the same. *)
Lemma C2_correct_properties_pipeline_witness :
  let self := PropertyCorrector.register_correction PropertyCorrector.new
                "rename_x" Stub.rename_x in
  let d := [("b", VStr " 5 "); ("a", VStr " x "); ("c", VBool true)] in
  PropertyCorrector.correct_properties self (VDict d)
  = Stated.outcome
      (Stated.gated_pipeline (PropertyCorrector._corrections self)) d
  /\ Stated.outcome
       (Stated.gated_pipeline (PropertyCorrector._corrections self)) d
     = Ok (VDict [("b", VInt 5); ("a", VStr "y"); ("c", VBool true)], 3)
  /\ (exists corrected,
         VDict [("b", VInt 5); ("a", VStr "y"); ("c", VBool true)]
         = VDict corrected
         /\ keys corrected = keys d)
  /\ PropertyCorrector.correct_properties self (VDict d)
     = Stated.outcome (Stated.pipeline (PropertyCorrector._corrections self)) d.
Proof.
  intros self d.
  assert (Hnd : NoDup (keys d))
    by (repeat constructor; simpl; intuition discriminate).
  destruct (C2_correct_properties_pipeline self) as (_ & Hgated & Hkeys & Hf).
  split; [exact (Hgated d Hnd)|].
  split; [vm_compute; reflexivity|].
  split.
  - apply (Hkeys d _ 3 Hnd). vm_compute; reflexivity.
  - apply (Hf d Hnd).
    exact (@register_correction_faithful PropertyCorrector.new
             "rename_x" Stub.rename_x
             default_corrections_faithful rename_x_faithful).
Defined.

(** C2 (as stated) fails twice over.  A rule that hands back [None] and
    reports no change has its output dropped, where the pipeline feeds it
    forward; and on a string of 4301 digits the default rules raise. *)
Lemma C2_counterexample :
  ~ Stated.properties_pipeline
      (PropertyCorrector.register_correction PropertyCorrector.new
         "clear" Stub.clear_quietly)
      [("a", VStr "x")]
  /\ ~ Stated.properties_pipeline PropertyCorrector.new
         [("a", VStr (Stub.ones 4301))].
Proof.
  split; intros (corrected & total & Hp & Hc).
  - vm_compute in Hp. vm_compute in Hc. rewrite <- Hp in Hc.
    discriminate Hc.
  - assert (Hraise :
              PropertyCorrector.correct_properties PropertyCorrector.new
                (VDict [("a", VStr (Stub.ones 4301))])
              = Raise (int_too_long 4301)) by (vm_compute; reflexivity).
    rewrite Hraise in Hc. discriminate Hc.
Qed.

Section NumericPriority.

Import PropertyCorrector.

(** C6.  The numeric-string correction tries the integer pattern first:
    ["42"], which both patterns accept, becomes the integer [42]; ["42.5"]
    becomes the float 42.5 and ["1e3"] the float 1000.0; each of the three
    is one fix of [correct_properties].  In general, whenever the stripped
    string matches the integer pattern the string goes to [int] and never
    to [float]: the result is the integer it denotes when it has at most
    4300 digits, and the [ValueError] of [int] when it has more. *)
Theorem C6_numeric_priority :
  (forall key,
      _fix_numeric_string key (VStr "42") = Ok (VInt 42, true)
      /\ _fix_numeric_string key (VStr "42.5")
         = Ok (VFloat (dyadic 85 (-1)), true)
      /\ _fix_numeric_string key (VStr "1e3")
         = Ok (VFloat (dyadic 1000 0), true))
  /\ re_match float_pattern "42" = true
  /\ correct_properties new (VDict [("a", VStr "42")])
     = Ok (VDict [("a", VInt 42)], 1)
  /\ correct_properties new (VDict [("a", VStr "42.5")])
     = Ok (VDict [("a", VFloat (dyadic 85 (-1)))], 1)
  /\ correct_properties new (VDict [("a", VStr "1e3")])
     = Ok (VDict [("a", VFloat (dyadic 1000 0))], 1)
  /\ (forall key s,
         re_match int_pattern (strip s) = true ->
         (digit_count (strip s) <= int_max_str_digits ->
          _fix_numeric_string key (VStr s)
          = Ok (VInt (decimal_value (strip s)), true))
         /\ (int_max_str_digits < digit_count (strip s) ->
             _fix_numeric_string key (VStr s)
             = Raise (int_too_long (digit_count (strip s))))).
Proof.
  split; [intro key; repeat split; vm_compute; reflexivity|].
  split; [vm_compute; reflexivity|].
  split; [vm_compute; reflexivity|].
  split; [vm_compute; reflexivity|].
  split; [vm_compute; reflexivity|].
  intros key s Hint. unfold _fix_numeric_string. rewrite Hint. split; intro H.
  - now rewrite (int_of_str_short _ H).
  - now rewrite (int_of_str_long _ H).
Qed.

Lemma C6_numeric_priority_witness :
  (re_match int_pattern (strip " 007 ") = true
   /\ _fix_numeric_string "a" (VStr " 007 ") = Ok (VInt 7, true))
  /\ (re_match int_pattern (strip (Stub.ones 4301)) = true
      /\ _fix_numeric_string "a" (VStr (Stub.ones 4301))
         = Raise (int_too_long 4301)).
Proof.
  pose proof (proj2 (proj2 (proj2 (proj2 (proj2 C6_numeric_priority)))))
    as Hgen.
  split.
  - split; [vm_compute; reflexivity|].
    apply (proj1 (Hgen "a" " 007 " eq_refl)).
    apply Nat.leb_le. vm_compute. reflexivity.
  - assert (Hm : re_match int_pattern (strip (Stub.ones 4301)) = true)
      by (vm_compute; reflexivity).
    split; [exact Hm|].
    apply (proj2 (Hgen "a" (Stub.ones 4301) Hm)).
    apply Nat.ltb_lt. vm_compute. reflexivity.
Defined.

End NumericPriority.

(* ================================================================== *)
(** * Properties of the geometry adapter                                *)
(* ================================================================== *)

Section GeometryAdapter.

Context {engine : GeometryEngine}.
Import GeometryCorrector.

(** C4.  [correct_geometry] returns for every geometry.  An already valid
    geometry comes back unchanged with [was_corrected = false] and the
    message "Geometry was already valid"; a repair that is still invalid
    gives back the original geometry with [was_corrected = false] and a
    "Could not fix" message; and an exception at any engine call
    (construction, either validity check, the explanation, the repair, the
    re-encoding) gives back the original geometry with
    [was_corrected = false] and an error message. *)
Theorem C4_correct_geometry_total (geometry : value) :
  exists out was_corrected message,
    correct_geometry geometry = Ok (out, was_corrected, message)
    /\ (forall g, shape geometry = Ok g -> is_valid g = Ok true ->
          out = geometry /\ was_corrected = false
          /\ message = "Geometry was already valid")
    /\ (forall g issue g',
          shape geometry = Ok g -> is_valid g = Ok false ->
          explain_validity g = Ok issue -> make_valid g = Ok g' ->
          is_valid g' = Ok false ->
          out = geometry /\ was_corrected = false
          /\ message = "Could not fix: " ++ issue)
    /\ (forall e,
          shape geometry = Raise e
          \/ (exists g, shape geometry = Ok g /\ is_valid g = Raise e)
          \/ (exists g, shape geometry = Ok g /\ is_valid g = Ok false
                        /\ explain_validity g = Raise e)
          \/ (exists g issue, shape geometry = Ok g /\ is_valid g = Ok false
                        /\ explain_validity g = Ok issue
                        /\ make_valid g = Raise e)
          \/ (exists g issue g', shape geometry = Ok g /\ is_valid g = Ok false
                        /\ explain_validity g = Ok issue
                        /\ make_valid g = Ok g' /\ is_valid g' = Raise e)
          \/ (exists g issue g', shape geometry = Ok g /\ is_valid g = Ok false
                        /\ explain_validity g = Ok issue
                        /\ make_valid g = Ok g' /\ is_valid g' = Ok true
                        /\ mapping g' = Raise e) ->
          out = geometry /\ was_corrected = false
          /\ message = "Error processing geometry: " ++ exn_str e).
Proof.
  unfold correct_geometry, try_except, bind.
  destruct (shape geometry) as [g|e0] eqn:Hs; [|settle_geometry].
  destruct (is_valid g) as [[|]|e0] eqn:Hv; [settle_geometry| |settle_geometry].
  destruct (explain_validity g) as [issue|e0] eqn:He; [|settle_geometry].
  destruct (make_valid g) as [g'|e0] eqn:Hm; [|settle_geometry].
  destruct (is_valid g') as [[|]|e0] eqn:Hv';
    [destruct (mapping g') as [m|e0] eqn:Hmap|..]; settle_geometry.
Qed.

(** The part of the above that says [correct_geometry] never raises. *)
Lemma C4_total_aux (geometry : value) :
  exists out was_corrected message,
    correct_geometry geometry = Ok (out, was_corrected, message).
Proof.
  unfold correct_geometry, try_except, bind.
  destruct (shape geometry) as [g|e0]; [|now eauto].
  destruct (is_valid g) as [[|]|e0]; [now eauto| |now eauto].
  destruct (explain_validity g) as [issue|e0]; [|now eauto].
  destruct (make_valid g) as [g'|e0]; [|now eauto].
  destruct (is_valid g') as [[|]|e0];
    [destruct (mapping g') as [m|e0]|..]; now eauto.
Qed.

End GeometryAdapter.

(** [correct_geometry] on a line string the stub engine cannot repair. *)
Lemma C4_correct_geometry_total_witness :
  exists out was_corrected message,
    GeometryCorrector.correct_geometry (engine := Stub.engine)
      (VDict [("type", VStr "LineString")])
    = Ok (out, was_corrected, message)
    /\ out = VDict [("type", VStr "LineString")]
    /\ was_corrected = false
    /\ message = "Could not fix: Self-intersection".
Proof.
  destruct (C4_correct_geometry_total (engine := Stub.engine)
              (VDict [("type", VStr "LineString")]))
    as (out & wc & msg & Heq & _ & Hfix & _).
  exists out, wc, msg. split; [exact Heq|].
  apply (Hfix [("type", VStr "LineString")] "Self-intersection"
              [("type", VStr "LineString")]); reflexivity.
Defined.

(* ================================================================== *)
(** * Properties of the document corrector                              *)
(* ================================================================== *)

Section DocumentCorrector.

Context {engine : GeometryEngine}.
Variable repr : value -> string.
Variable self : GeoJSONCorrector.t.
Import GeoJSONCorrector.

Lemma correct_geometry_returns (geometry : value) :
  exists r, GeometryCorrector.correct_geometry geometry = Ok r.
Proof.
  destruct (C4_total_aux geometry) as (out & wc & msg & H).
  now exists (out, wc, msg).
Qed.

Lemma count_fixes_warnings r d : warnings (count_fixes r d) = warnings r.
Proof. unfold count_fixes. now destruct (geometry_corrected d). Qed.

Lemma count_fixes_errors r d : errors (count_fixes r d) = errors r.
Proof. unfold count_fixes. now destruct (geometry_corrected d). Qed.

Lemma count_fixes_details r d : details (count_fixes r d) = details r.
Proof. unfold count_fixes. now destruct (geometry_corrected d). Qed.

Lemma count_fixes_original r d :
  original_feature_count (count_fixes r d) = original_feature_count r.
Proof. unfold count_fixes. now destruct (geometry_corrected d). Qed.

Lemma correct_features_warnings fs :
  forall idx acc r,
    warnings (snd (correct_features self idx fs acc r)) = warnings r.
Proof.
  induction fs as [|f fs IH]; intros idx acc r; simpl; [reflexivity|].
  destruct (correct_feature self f idx) as [[cf dt]|e]; rewrite IH;
    [now rewrite count_fixes_warnings | reflexivity].
Qed.

(** C8.  A document whose [type] is none of [FeatureCollection], [Feature]
    and the seven geometry type names comes back as it is, with exactly one
    error, "Unknown GeoJSON type: " followed by the type, and with every
    count of the result still 0. *)
Theorem C8_unknown_type (d : dict) :
  (forall s, In s ("FeatureCollection" :: "Feature" :: geometry_type_names) ->
             get d "type" <> VStr s) ->
  exists result,
    correct_geojson repr self (VDict d) = Ok (VDict d, result)
    /\ errors result
       = ["Unknown GeoJSON type: " ++ str repr (get d "type")]
    /\ corrected_feature_count result = 0
    /\ original_feature_count result = 0
    /\ details result = [] /\ warnings result = [].
Proof.
  intro Hty.
  assert (Hno : forall s,
             In s ("FeatureCollection" :: "Feature" :: geometry_type_names) ->
             eq_str (get d "type") s = false).
  { intros s Hs. specialize (Hty s Hs). unfold eq_str.
    destruct (get d "type"); try reflexivity.
    destruct (String.eqb_spec s0 s); [subst; congruence | reflexivity]. }
  unfold correct_geojson.
  rewrite (Hno "FeatureCollection") by (simpl; auto).
  rewrite (Hno "Feature") by (simpl; auto).
  assert (Hgeo : in_strs (get d "type") geometry_type_names = false).
  { unfold in_strs, geometry_type_names. simpl.
    rewrite !Hno by (simpl; auto 10). reflexivity. }
  rewrite Hgeo. eexists. split; [reflexivity|]. simpl. auto.
Qed.

Lemma feature_skeleton_keys (f : dict) k :
  in_str_list k ["type"; "properties"; "geometry"] = false ->
  dict_get [("type", VStr "Feature");
            ("properties", get f "properties");
            ("geometry", get f "geometry")] k = None.
Proof.
  intro Hk. apply dict_get_not_in. apply in_str_list_not_In in Hk. exact Hk.
Qed.

(** What [correct_feature] returns, in terms of the two corrections it
    runs. *)
Lemma correct_feature_inv (f : dict) idx out dt :
  correct_feature self (VDict f) idx = Ok (out, dt) ->
  exists cf,
    out = VDict cf
    /\ feature_index dt = idx
    /\ dict_get cf "type" = Some (VStr "Feature")
    /\ (exists p n,
           PropertyCorrector.correct_properties (property_corrector self)
             (get f "properties") = Ok (p, n)
           /\ dict_get cf "properties" = Some p
           /\ properties_fixes dt = n)
    /\ (get f "geometry" = VNone /\ dict_get cf "geometry" = Some VNone
        \/ get f "geometry" <> VNone
           /\ exists g was_corrected message,
               GeometryCorrector.correct_geometry (get f "geometry")
               = Ok (g, was_corrected, message)
               /\ dict_get cf "geometry" = Some g)
    /\ (forall k, ~ In k ["type"; "properties"; "geometry"] ->
                  dict_get cf k = dict_get f k).
Proof.
  unfold correct_feature.
  set (skip := ["type"; "properties"; "geometry"]).
  set (cf0 := copy_other_keys skip f _).
  assert (Hty : dict_get cf0 "type" = Some (VStr "Feature"))
    by (subst cf0; now rewrite copy_other_keys_skip).
  assert (Hgeo : dict_get cf0 "geometry" = Some (get f "geometry"))
    by (subst cf0; now rewrite copy_other_keys_skip).
  assert (Hcopy : forall k, ~ In k skip -> dict_get cf0 k = dict_get f k).
  { intros k Hk. subst cf0. apply copy_other_keys_get.
    - now apply in_str_list_not_In.
    - apply feature_skeleton_keys. }
  clearbody cf0.
  assert (Hfinish :
            forall cf1 d1 g,
              dict_get cf1 "type" = Some (VStr "Feature") ->
              dict_get cf1 "geometry" = Some g ->
              feature_index d1 = idx ->
              (forall k, ~ In k skip -> dict_get cf1 k = dict_get f k) ->
              ('(corrected_props, prop_fixes) <-
                 PropertyCorrector.correct_properties (property_corrector self)
                   (get f "properties") ;;
               Ok (VDict (dict_set cf1 "properties" corrected_props),
                   set_properties_fixes d1 prop_fixes)) = Ok (out, dt) ->
              exists cf,
                out = VDict cf /\ feature_index dt = idx
                /\ dict_get cf "type" = Some (VStr "Feature")
                /\ (exists p n,
                       PropertyCorrector.correct_properties
                         (property_corrector self) (get f "properties")
                       = Ok (p, n)
                       /\ dict_get cf "properties" = Some p
                       /\ properties_fixes dt = n)
                /\ dict_get cf "geometry" = Some g
                /\ (forall k, ~ In k skip -> dict_get cf k = dict_get f k)).
  { intros cf1 d1 g H1 H2 H3 H4. unfold bind.
    destruct (PropertyCorrector.correct_properties _ _) as [[p n]|e];
      [|discriminate].
    intro H. injection H as <- <-. eexists. split; [reflexivity|].
    split; [exact H3|].
    split; [now rewrite dict_get_set_neq by discriminate|].
    split; [exists p, n; repeat split; apply dict_get_set_eq|].
    split; [now rewrite dict_get_set_neq by discriminate|].
    intros k Hk. rewrite dict_get_set_neq; [now apply H4|].
    intros <-. apply Hk. simpl. auto. }
  destruct (get f "geometry") eqn:Hg.
  1:{ unfold bind at 1. intro H.
      destruct ((fun E => Hfinish _ _ _ Hty Hgeo E Hcopy H) eq_refl)
        as (cf & -> & Hi & Ht & Hp & Hg' & Hk).
      exists cf. repeat split; auto. }
  all: unfold bind at 1;
    destruct (GeometryCorrector.correct_geometry _) as [[[g wc] msg]|e] eqn:Hcg;
    [|discriminate]; intro H;
    assert (Hset : dict_get (dict_set cf0 "geometry" g) "geometry" = Some g)
      by apply dict_get_set_eq;
    assert (Hty' : dict_get (dict_set cf0 "geometry" g) "type"
                   = Some (VStr "Feature"))
      by (now rewrite dict_get_set_neq by discriminate);
    assert (Hcopy' : forall k, ~ In k skip ->
                       dict_get (dict_set cf0 "geometry" g) k = dict_get f k)
      by (intros k Hk; rewrite dict_get_set_neq;
          [now apply Hcopy | intros <-; apply Hk; simpl; auto]);
    destruct ((fun E => Hfinish _ _ _ Hty' Hset E Hcopy' H) eq_refl)
      as (cf & -> & Hi & Ht & Hp & Hg' & Hk);
    exists cf; repeat split; auto;
    right; (split; [discriminate|]); exists g, wc, msg; split; auto.
Qed.


Lemma correct_feature_index f idx out dt :
  correct_feature self f idx = Ok (out, dt) -> feature_index dt = idx.
Proof.
  destruct f as [| | | | | |d]; try discriminate.
  intro H. destruct (correct_feature_inv _ _ H) as (cf & _ & Hi & _).
  exact Hi.
Qed.

(** What the loop of [_correct_feature_collection] adds, from position
    [idx] on: one output per feature, and one error or one detail per
    feature. *)
Lemma correct_features_spec :
  forall fs idx acc r acc' r',
    correct_features self idx fs acc r = (acc', r') ->
    exists outs es ds,
      acc' = (acc ++ outs)%list
      /\ List.length outs = List.length fs
      /\ errors r' = (errors r ++ es)%list
      /\ details r' = (details r ++ ds)%list
      /\ original_feature_count r' = original_feature_count r
      /\ List.length es + List.length ds = List.length fs
      /\ (forall j f,
             nth_error fs j = Some f ->
             match correct_feature self f (idx + j) with
             | Ok (cf, dt) => nth_error outs j = Some cf /\ In dt ds
             | Raise e =>
                 nth_error outs j = Some f
                 /\ In ("Error processing feature " ++ string_of_nat (idx + j)
                        ++ ": " ++ exn_str e) es
             end)
      /\ (forall dt,
             In dt ds ->
             exists j f cf,
               nth_error fs j = Some f
               /\ correct_feature self f (idx + j) = Ok (cf, dt)).
Proof.
  induction fs as [|f fs IH]; intros idx acc r acc' r' H; simpl in H.
  - injection H as <- <-. exists [], [], [].
    rewrite !app_nil_r. repeat split; auto.
    + intros [|j] f0 Hj; discriminate.
    + intros dt [].
  - destruct (correct_feature self f idx) as [[cf dt]|e] eqn:Hcf.
    + destruct (IH _ _ _ _ _ H)
        as (outs & es & ds & -> & Hlen & He & Hd & Ho & Hsum & Hnth & Hds).
      exists (cf :: outs), es, (dt :: ds).
      rewrite count_fixes_errors in He. rewrite count_fixes_details in Hd.
      rewrite count_fixes_original in Ho. simpl in He, Hd, Ho.
      rewrite <- app_assoc in Hd.
      split; [now rewrite <- app_assoc|].
      split; [simpl; now rewrite Hlen|].
      repeat split; auto.
      * simpl. lia.
      * intros [|j] f0 Hj; simpl in Hj.
        -- injection Hj as <-. rewrite Nat.add_0_r, Hcf. simpl. auto.
        -- specialize (Hnth j f0 Hj). rewrite Nat.add_succ_r.
           simpl in Hnth. destruct (correct_feature self f0 _) as [[cf0 dt0]|e0];
             simpl; intuition.
      * intros dt0 [<-|Hin].
        -- exists 0, f, cf. now rewrite Nat.add_0_r.
        -- destruct (Hds dt0 Hin) as (j & f0 & cf0 & Hj & Hok).
           exists (S j), f0, cf0. now rewrite Nat.add_succ_r.
    + destruct (IH _ _ _ _ _ H)
        as (outs & es & ds & -> & Hlen & He & Hd & Ho & Hsum & Hnth & Hds).
      simpl in He, Hd, Ho. rewrite <- app_assoc in He.
      eexists (f :: outs), (_ :: es), ds.
      split; [now rewrite <- app_assoc|].
      split; [simpl; now rewrite Hlen|].
      split; [exact He|].
      repeat split; auto.
      * simpl. lia.
      * intros [|j] f0 Hj; simpl in Hj.
        -- injection Hj as <-. rewrite Nat.add_0_r, Hcf. simpl. auto.
        -- specialize (Hnth j f0 Hj). rewrite Nat.add_succ_r.
           simpl in Hnth. destruct (correct_feature self f0 _) as [[cf0 dt0]|e0];
             simpl; intuition.
      * intros dt0 Hin.
        destruct (Hds dt0 Hin) as (j & f0 & cf0 & Hj & Hok).
        exists (S j), f0, cf0. now rewrite Nat.add_succ_r.
Qed.

(** C1.  For a FeatureCollection whose [features] is a list of [N] entries
    (or is absent, [N = 0]), [correct_geojson] returns; the result counts
    [N] features seen and [N] emitted; the output [features] list has length
    [N]; at position [i] it holds the corrected feature [i], whose detail is
    recorded, or, when correcting feature [i] raised, the original feature
    [i], with the error "Error processing feature i: cause" recorded and no
    detail bearing index [i].  Every feature accounts for exactly one error
    or one detail. *)
Theorem C1_collection_count_and_order (d : dict) (fs : list value) :
  get d "type" = VStr "FeatureCollection" ->
  get_default d "features" (VList []) = VList fs ->
  exists out result fs',
    correct_geojson repr self (VDict d) = Ok (VDict out, result)
    /\ corrected_feature_count result = List.length fs
    /\ original_feature_count result = List.length fs
    /\ dict_get out "features" = Some (VList fs')
    /\ List.length fs' = List.length fs
    /\ List.length (errors result) + List.length (details result)
       = List.length fs
    /\ (forall i f,
           nth_error fs i = Some f ->
           match correct_feature self f i with
           | Ok (cf, dt) =>
               nth_error fs' i = Some cf /\ In dt (details result)
           | Raise e =>
               nth_error fs' i = Some f
               /\ In ("Error processing feature " ++ string_of_nat i
                      ++ ": " ++ exn_str e) (errors result)
               /\ (forall dt, In dt (details result) -> feature_index dt <> i)
           end).
Proof.
  intros Hty Hfs. unfold correct_geojson. rewrite Hty.
  change (eq_str (VStr "FeatureCollection") "FeatureCollection") with true.
  cbv iota. unfold _correct_feature_collection. rewrite Hfs. simpl len.
  simpl iter. unfold bind.
  destruct (correct_features self 0 fs []
              (set_original_feature_count new_result (List.length fs)))
    as [cfs r] eqn:Hloop.
  destruct (correct_features_spec _ _ _ _ Hloop)
    as (outs & es & ds & Hout & Hlen & He & Hd & Ho & Hsum & Hnth & Hds).
  simpl in Hout, He, Hd, Ho. subst cfs.
  do 3 eexists. split; [reflexivity|].
  split; [simpl; exact Hlen|].
  split; [simpl; exact Ho|].
  split; [now rewrite copy_other_keys_skip|].
  split; [exact Hlen|].
  split; [simpl; now rewrite He, Hd|].
  intros i f Hi. specialize (Hnth i f Hi). simpl in Hnth.
  destruct (correct_feature self f i) as [[cf dt]|e] eqn:Hcf; simpl.
  - now rewrite Hd.
  - rewrite He, Hd. destruct Hnth as [Hn Hin]. repeat split; auto.
    intros dt Hdt Heq. destruct (Hds dt Hdt) as (j & f0 & cf0 & Hj & Hok).
    simpl in Hok. pose proof (correct_feature_index _ _ Hok) as Hidx.
    assert (j = i) as -> by congruence.
    rewrite Hi in Hj. injection Hj as <-. congruence.
Qed.

(** C7 (as amended).  A single-Feature document has
    [original_feature_count = 1].  When correcting the feature succeeds the
    corrected feature is returned with its detail recorded; when it raises,
    the original document is returned unmodified and the one error recorded
    is "Error processing feature: {cause}", which carries no index. *)
Theorem C7_single_feature (d : dict) :
  get d "type" = VStr "Feature" ->
  exists out result,
    correct_geojson repr self (VDict d) = Ok (out, result)
    /\ original_feature_count result = 1
    /\ match correct_feature self (VDict d) 0 with
       | Ok (corrected_feature, dt) =>
           out = corrected_feature /\ errors result = []
           /\ details result = [dt] /\ corrected_feature_count result = 1
       | Raise e =>
           out = VDict d
           /\ errors result = ["Error processing feature: " ++ exn_str e]
           /\ details result = [] /\ corrected_feature_count result = 0
       end.
Proof.
  intro Hty. unfold correct_geojson. rewrite Hty. cbn [eq_str String.eqb].
  change (eq_str (VStr "Feature") "FeatureCollection") with false.
  change (eq_str (VStr "Feature") "Feature") with true. cbv iota.
  unfold _correct_single_feature, try_except, bind.
  destruct (correct_feature self (VDict d) 0) as [[cf dt]|e].
  - do 2 eexists. split; [reflexivity|]. split.
    + cbn -[count_fixes]. now rewrite count_fixes_original.
    + cbn -[count_fixes]. rewrite count_fixes_errors, count_fixes_details.
      auto.
  - do 2 eexists. split; [reflexivity|]. cbn. auto.
Qed.

End DocumentCorrector.

(** A collection of three whose second entry is not a mapping. *)
Lemma C1_collection_count_and_order_witness :
  let fs := [VDict [("type", VStr "Feature");
                    ("properties", VDict [("a", VStr "5")])];
             VStr "junk";
             VDict [("type", VStr "Feature")]] in
  let d := [("type", VStr "FeatureCollection"); ("features", VList fs)] in
  exists out result fs',
    GeoJSONCorrector.correct_geojson (engine := Stub.engine)
      (@repr Stub.codec) GeoJSONCorrector.new (VDict d)
    = Ok (VDict out, result)
    /\ corrected_feature_count result = 3
    /\ dict_get out "features" = Some (VList fs')
    /\ nth_error fs' 1 = Some (VStr "junk")
    /\ In "Error processing feature 1: 'str' object has no attribute 'get'"
          (errors result).
Proof.
  intros fs d.
  destruct (@C1_collection_count_and_order Stub.engine (@repr Stub.codec)
              GeoJSONCorrector.new d fs eq_refl eq_refl)
    as (out & result & fs' & Heq & Hc & _ & Hf & _ & _ & Hi).
  exists out, result, fs'.
  split; [exact Heq|]. split; [exact Hc|]. split; [exact Hf|].
  specialize (Hi 1 (VStr "junk") eq_refl). cbn in Hi.
  destruct Hi as (H1 & H2 & _). split; assumption.
Defined.


(** The unknown-type scenario: [{"type": "Widget"}]. *)
Lemma C8_unknown_type_witness :
  exists result,
    GeoJSONCorrector.correct_geojson (engine := Stub.engine)
      (@repr Stub.codec) GeoJSONCorrector.new Stub.widget
    = Ok (Stub.widget, result)
    /\ errors result = ["Unknown GeoJSON type: Widget"]
    /\ corrected_feature_count result = 0.
Proof.
  destruct (C8_unknown_type (engine := Stub.engine) (@repr Stub.codec)
              GeoJSONCorrector.new [("type", VStr "Widget")])
    as (result & Heq & Herr & Hcnt & _).
  - intros s Hs. simpl in Hs.
    repeat (destruct Hs as [<-|Hs]; [vm_compute; discriminate|]).
    destruct Hs.
  - exists result. repeat split; assumption.
Defined.

(** A Feature whose [properties] is a string, so that correcting it raises. *)
Lemma C7_single_feature_witness :
  let d := [("type", VStr "Feature"); ("properties", VStr "oops")] in
  exists result,
    GeoJSONCorrector.correct_geojson (engine := Stub.engine)
      (@repr Stub.codec) GeoJSONCorrector.new (VDict d)
    = Ok (VDict d, result)
    /\ original_feature_count result = 1
    /\ errors result
       = ["Error processing feature: 'str' object has no attribute 'items'"].
Proof.
  intro d.
  destruct (C7_single_feature (engine := Stub.engine) (@repr Stub.codec)
              GeoJSONCorrector.new d eq_refl)
    as (out & result & Heq & Horig & Hcase).
  cbn in Hcase. destruct Hcase as (-> & Herr & _).
  exists result. repeat split; assumption.
Defined.

(** C7 (as stated) fails: on a Feature whose [properties] is a string the
    recorded error has no index. *)
Lemma C7_counterexample :
  ~ Stated.single_feature_failure (engine := Stub.engine)
      (@repr Stub.codec) GeoJSONCorrector.new
      [("type", VStr "Feature"); ("properties", VStr "oops")].
Proof.
  intro H.
  destruct (H (no_attribute (VStr "oops") "items") eq_refl)
    as (result & Heq & _ & Hin).
  vm_compute in Heq. injection Heq as <-.
  cbn in Hin. destruct Hin as [Hin|[]]. discriminate Hin.
Qed.

(* ================================================================== *)
(** * The warnings of a result                                          *)
(* ================================================================== *)

Section Warnings.

Context {engine : GeometryEngine} {codec : JsonCodec}.

Lemma correct_geojson_warnings rp self doc out result :
  GeoJSONCorrector.correct_geojson rp self doc = Ok (out, result) ->
  warnings result = [].
Proof.
  unfold GeoJSONCorrector.correct_geojson. intro H.
  destruct doc as [| | | | | |d]; try discriminate.
  destruct (eq_str (get d "type") "FeatureCollection").
  { unfold GeoJSONCorrector._correct_feature_collection, bind in H.
    destruct (len _) as [n|]; [|discriminate].
    destruct (iter _) as [items|]; [|discriminate].
    pose proof (correct_features_warnings self items 0 []
                  (set_original_feature_count new_result n)) as Hw.
    destruct (GeoJSONCorrector.correct_features _ _ _ _ _) as [cfs r].
    injection H as _ <-. exact Hw. }
  destruct (eq_str (get d "type") "Feature").
  { unfold GeoJSONCorrector._correct_single_feature, try_except, bind in H.
    destruct (GeoJSONCorrector.correct_feature _ _ _) as [[cf dt]|e];
      injection H as _ <-; cbn -[count_fixes];
      [now rewrite count_fixes_warnings | reflexivity]. }
  destruct (in_strs (get d "type") GeoJSONCorrector.geometry_type_names).
  { unfold GeoJSONCorrector._correct_bare_geometry, try_except, bind in H.
    destruct (GeometryCorrector.correct_geometry _) as [[[g [|]] msg]|e];
      injection H as _ <-; reflexivity. }
  injection H as _ <-. reflexivity.
Qed.

(** C10.  No result carries a warning: whatever [correct_geojson] or
    [correct_geojson_file] returns, on any input, its [warnings] list is
    empty. *)
Theorem C10_no_warnings :
  (forall rp self doc out result,
      GeoJSONCorrector.correct_geojson rp self doc = Ok (out, result) ->
      warnings result = [])
  /\ (forall file_content out result,
         Facade.correct_geojson_file file_content = Ok (out, result) ->
         warnings result = []).
Proof.
  split; [exact correct_geojson_warnings|].
  intros fc out result. unfold Facade.correct_geojson_file, bind.
  destruct (Facade.decode fc) as [text|]; [|discriminate].
  destruct (json_loads text) as [doc|e].
  - destruct (GeoJSONCorrector.correct_geojson _ _ _) as [[cd r]|] eqn:Hc;
      [|discriminate].
    intro H. injection H as _ <-. exact (correct_geojson_warnings _ _ _ Hc).
  - destruct (is_JSONDecodeError e); [|discriminate].
    intro H. injection H as _ <-. reflexivity.
Qed.

End Warnings.

(** The warnings after correcting the Widget document, from the value and
    from its text. *)
Lemma C10_no_warnings_witness :
  (exists out result,
      GeoJSONCorrector.correct_geojson (engine := Stub.engine)
        (@repr Stub.codec) GeoJSONCorrector.new Stub.widget = Ok (out, result)
      /\ warnings result = [])
  /\ (exists out result,
         Facade.correct_geojson_file (engine := Stub.engine)
           (codec := Stub.codec) (Text Stub.text_widget) = Ok (out, result)
         /\ warnings result = []).
Proof.
  split.
  - do 2 eexists. split; [vm_compute; reflexivity|].
    apply (proj1 (C10_no_warnings (engine := Stub.engine)
                    (codec := Stub.codec))
             (@repr Stub.codec) GeoJSONCorrector.new Stub.widget
             Stub.widget).
    vm_compute; reflexivity.
  - do 2 eexists. split; [vm_compute; reflexivity|].
    apply (proj2 (C10_no_warnings (engine := Stub.engine)
                    (codec := Stub.codec))
             (Text Stub.text_widget) Stub.text_widget).
    vm_compute; reflexivity.
Defined.

(* ================================================================== *)
(** * The validation pass                                               *)
(* ================================================================== *)

Section Validation.

Context {engine : GeometryEngine} {codec : JsonCodec}.
Import Facade.

Lemma validate_geometry_returns (geometry : value) :
  exists is_valid explanation,
    GeometryCorrector.validate_geometry geometry = Ok (is_valid, explanation).
Proof.
  unfold GeometryCorrector.validate_geometry, try_except, bind.
  destruct (shape geometry) as [g|e]; [|now eauto].
  destruct (is_valid g) as [[|]|e]; [now eauto| |now eauto].
  destruct (explain_validity g) as [issue|e]; now eauto.
Qed.

Lemma check_geometry_issues (geometry : value) idx issues :
  check_geometry geometry idx issues
  = Ok (issues ++ Stated.issues_of_truthy geometry idx)%list.
Proof.
  unfold check_geometry, Stated.issues_of_truthy, Stated.issues_of, bind.
  destruct (truthy geometry); [|now rewrite app_nil_r].
  destruct (validate_geometry_returns geometry) as ([|] & msg & ->); simpl;
    [now rewrite app_nil_r | reflexivity].
Qed.

Lemma validate_features_issues (fs : list dict) :
  forall idx issues,
    validate_features idx (map VDict fs) issues
    = Ok (issues
          ++ Stated.issues_of_features Stated.issues_of_truthy idx fs)%list.
Proof.
  induction fs as [|f fs IH]; intros idx issues; simpl.
  - now rewrite app_nil_r.
  - rewrite check_geometry_issues. simpl. rewrite IH.
    now rewrite <- app_assoc.
Qed.

(** What [validate_geojson_file] returns on a text that decodes. *)
Lemma validate_geojson_file_issues (file_content : content) (text : string) :
  decode file_content = Ok text ->
  (forall e,
      json_loads text = Raise e -> is_JSONDecodeError e = true ->
      validate_geojson_file file_content = Ok [json_error (exn_str e)])
  /\ (forall d,
         json_loads text = Ok (VDict d) ->
         (forall fs,
             get d "type" = VStr "FeatureCollection" ->
             get_default d "features" (VList []) = VList (map VDict fs) ->
             validate_geojson_file file_content
             = Ok (Stated.issues_of_features Stated.issues_of_truthy 0 fs))
         /\ (get d "type" = VStr "Feature" ->
             validate_geojson_file file_content
             = Ok (Stated.issues_of_truthy (get d "geometry") 0))
         /\ (in_strs (get d "type") GeoJSONCorrector.geometry_type_names = true ->
             validate_geojson_file file_content
             = Ok (Stated.issues_of (VDict d) 0))).
Proof.
  intro Hdec. unfold validate_geojson_file. rewrite Hdec. cbn [bind].
  split.
  - intros e -> ->. reflexivity.
  - intros d ->. split; [|split].
    + intros fs -> ->.
      change (eq_str (VStr "FeatureCollection") "FeatureCollection") with true.
      cbv iota. cbn [iter bind].
      now rewrite validate_features_issues.
    + intros ->.
      change (eq_str (VStr "Feature") "FeatureCollection") with false.
      change (eq_str (VStr "Feature") "Feature") with true. cbv iota.
      now rewrite check_geometry_issues.
    + intro Hgeo.
      assert (Hfc : eq_str (get d "type") "FeatureCollection" = false).
      { destruct (get d "type") as [| | | |s| |]; try reflexivity.
        destruct (String.eqb_spec s "FeatureCollection") as [->|];
          [discriminate Hgeo|]. simpl. now apply String.eqb_neq. }
      assert (Hf : eq_str (get d "type") "Feature" = false).
      { destruct (get d "type") as [| | | |s| |]; try reflexivity.
        destruct (String.eqb_spec s "Feature") as [->|];
          [discriminate Hgeo|]. simpl. now apply String.eqb_neq. }
      rewrite Hfc, Hf, Hgeo. unfold Stated.issues_of, bind.
      destruct (validate_geometry_returns (VDict d)) as ([|] & msg & ->);
        reflexivity.
Qed.

End Validation.

(** [validate_geojson_file] does not depend on the repair operation, nor on
    the re-encoding of a repaired geometry. *)
Lemma validate_ignores_repair (G : Type) sh iv ev mv1 mp1 mv2 mp2
    (codec : JsonCodec) (file_content : content) :
  Facade.validate_geojson_file
    (engine := @Build_GeometryEngine G sh iv ev mv1 mp1) file_content
  = Facade.validate_geojson_file
      (engine := @Build_GeometryEngine G sh iv ev mv2 mp2) file_content.
Proof. reflexivity. Qed.

(** C9 (as amended).  On a text that is not JSON, [validate_geojson_file]
    returns the one issue [json_error].  On a JSON object it validates the
    geometry of each feature of a collection of objects, or of the single
    feature, when that geometry is true in a condition (not null, and not
    an empty mapping, sequence or string, zero or false), and validates a
    bare geometry always; it returns one [geometry_invalid] issue, with the
    feature's position, for each geometry found invalid, in order.  It never
    uses the repair operation. *)
Theorem C9_validate_geojson_file :
  (forall (engine : GeometryEngine) (codec : JsonCodec)
          (file_content : content) (text : string),
      Facade.decode file_content = Ok text ->
      (forall e,
          json_loads text = Raise e -> is_JSONDecodeError e = true ->
          Facade.validate_geojson_file file_content
          = Ok [json_error (exn_str e)])
      /\ (forall d,
             json_loads text = Ok (VDict d) ->
             (forall fs,
                 get d "type" = VStr "FeatureCollection" ->
                 get_default d "features" (VList []) = VList (map VDict fs) ->
                 Facade.validate_geojson_file file_content
                 = Ok (Stated.issues_of_features Stated.issues_of_truthy 0 fs))
             /\ (get d "type" = VStr "Feature" ->
                 Facade.validate_geojson_file file_content
                 = Ok (Stated.issues_of_truthy (get d "geometry") 0))
             /\ (in_strs (get d "type") GeoJSONCorrector.geometry_type_names
                 = true ->
                 Facade.validate_geojson_file file_content
                 = Ok (Stated.issues_of (VDict d) 0))))
  /\ (forall (G : Type) sh iv ev mv1 mp1 mv2 mp2
             (codec : JsonCodec) (file_content : content),
         Facade.validate_geojson_file
           (engine := @Build_GeometryEngine G sh iv ev mv1 mp1) file_content
         = Facade.validate_geojson_file
             (engine := @Build_GeometryEngine G sh iv ev mv2 mp2) file_content).
Proof.
  split.
  - intros engine codec. apply validate_geojson_file_issues.
  - apply validate_ignores_repair.
Qed.

(** A text that is not JSON, and the text of a Feature whose geometry is
    the empty mapping. *)
Lemma C9_validate_geojson_file_witness :
  Facade.validate_geojson_file (engine := Stub.engine) (codec := Stub.codec)
    (Text "not json")
  = Ok [json_error "Expecting value: line 1 column 1 (char 0)"]
  /\ Facade.validate_geojson_file (engine := Stub.engine)
       (codec := Stub.codec) (Text Stub.text_empty_geometry)
     = Ok [].
Proof.
  destruct (proj1 C9_validate_geojson_file Stub.engine Stub.codec
              (Text "not json") "not json" eq_refl) as [Herr _].
  destruct (proj1 C9_validate_geojson_file Stub.engine Stub.codec
              (Text Stub.text_empty_geometry) Stub.text_empty_geometry
              eq_refl) as [_ Hdoc].
  split.
  - apply (Herr (mkExn JSONDecodeError
                       "Expecting value: line 1 column 1 (char 0)"));
      reflexivity.
  - destruct (Hdoc [("type", VStr "Feature"); ("geometry", VDict [])]
                eq_refl) as (_ & Hfeat & _).
    exact (Hfeat eq_refl).
Defined.

(** C9 (as stated) fails: the geometry of this Feature is the empty mapping,
    which is not null and which the engine rejects, yet no issue is
    returned. *)
Lemma C9_counterexample :
  ~ Stated.feature_validation (engine := Stub.engine) (codec := Stub.codec)
      (Text Stub.text_empty_geometry).
Proof.
  intro H.
  specialize (H Stub.text_empty_geometry
                [("type", VStr "Feature"); ("geometry", VDict [])]
                eq_refl eq_refl eq_refl).
  vm_compute in H. discriminate H.
Qed.

(* ================================================================== *)
(** * More on the property corrections                                  *)
(* ================================================================== *)

Section DefaultChain.

Import PropertyCorrector.

(** A character that lowers to [d] is [d] or the character 32 below it. *)
Lemma lower_char_preimage c d :
  lower_char c = d -> c = d \/ c = ascii_of_N (code d - 32).
Proof.
  intros <-.
  destruct c as [[|] [|] [|] [|] [|] [|] [|] [|]]; vm_compute; auto.
Qed.

Lemma lower_nil s : lower s = EmptyString -> s = EmptyString.
Proof. destruct s; [reflexivity|discriminate]. Qed.

Lemma lower_cons s d t :
  lower s = String d t ->
  exists c s', s = String c s' /\ lower s' = t
               /\ (c = d \/ c = ascii_of_N (code d - 32)).
Proof.
  destruct s as [|c s']; [discriminate|]. simpl. intro H.
  injection H as Hc Ht. exists c, s'. repeat split; auto.
  now apply lower_char_preimage.
Qed.

(** Splits a hypothesis [lower s = "literal"] into the finitely many
    strings [s] can be. *)
Ltac spell H :=
  repeat match type of H with
         | lower ?s = EmptyString => apply lower_nil in H; subst s
         | lower ?s = String _ _ =>
             let c := fresh "c" in
             let s' := fresh "s" in
             let E := fresh "E" in
             let Hc := fresh "Hc" in
             destruct (lower_cons _ H) as (c & s' & E & H' & Hc);
             clear H; rename H' into H; subst s; destruct Hc; subst c
         end.

Lemma in_str_list_cases s (l : list string) :
  in_str_list s l = true -> In s l.
Proof. apply in_str_list_In. Qed.

(** X1.  Whatever its case and surrounding whitespace, a string that reads
    [null], [none], [nil] or nothing goes through the default chain to
    [None], as one fix. *)
Theorem X1_null_strings key s n :
  In (lower (strip s)) ["null"; "none"; "nil"; ""] ->
  apply_corrections (_corrections new) key (VStr s) n = Ok (VNone, S n).
Proof.
  intro Hin. rewrite default_chain_str.
  assert (Hnull : in_str_list (lower (strip s)) ["null"; "none"; "nil"; ""]
                  = true) by now apply in_str_list_In.
  rewrite Hnull. clear Hnull.
  generalize dependent (strip s). intros t Hin.
  simpl in Hin. destruct Hin as [H|[H|[H|[H|[]]]]]; symmetry in H;
    spell H; reflexivity.
Qed.

Lemma X1_null_strings_witness :
  apply_corrections (_corrections new) "a" (VStr "  NuLL ") 0 = Ok (VNone, 1).
Proof.
  apply (@X1_null_strings "a" "  NuLL " 0). vm_compute. auto.
Defined.

(** X2.  Whatever its case and surrounding whitespace, a string that reads
    [true] or [false] goes through the default chain to that boolean, as
    one fix. *)
Theorem X2_boolean_strings key s n :
  (lower (strip s) = "true" ->
   apply_corrections (_corrections new) key (VStr s) n = Ok (VBool true, S n))
  /\ (lower (strip s) = "false" ->
      apply_corrections (_corrections new) key (VStr s) n
      = Ok (VBool false, S n)).
Proof.
  rewrite default_chain_str. generalize (strip s). intro t.
  split; intro H; rewrite H; simpl String.eqb; cbv iota;
    spell H; reflexivity.
Qed.

Lemma X2_boolean_strings_witness :
  apply_corrections (_corrections new) "a" (VStr " TRUE") 0
  = Ok (VBool true, 1)
  /\ apply_corrections (_corrections new) "a" (VStr "False ") 0
     = Ok (VBool false, 1).
Proof.
  split.
  - apply (proj1 (@X2_boolean_strings "a" " TRUE" 0)). reflexivity.
  - apply (proj2 (@X2_boolean_strings "a" "False " 0)). reflexivity.
Defined.

(** The default chain fixes a value at most once, and a fix changes it. *)
Lemma default_chain_at_most_once key v n v' n' :
  apply_corrections (_corrections new) key v n = Ok (v', n') ->
  v' = v /\ n' = n \/ v' <> v /\ n' = S n.
Proof.
  destruct v as [| | | |s| |];
    try (rewrite default_chain_other by (intro; discriminate);
         intro H; injection H as <- <-; now left).
  rewrite default_chain_str.
  destruct (re_match int_pattern (strip s)).
  { unfold bind. destruct (int_of_str (strip s)); [|discriminate].
    intro H; injection H as <- <-; right; split; [discriminate|reflexivity]. }
  destruct (re_match float_pattern (strip s));
    [intro H; injection H as <- <-; right; split; [discriminate|reflexivity]|].
  destruct (in_str_list (lower (strip s)) _);
    [intro H; injection H as <- <-; right; split; [discriminate|reflexivity]|].
  destruct (String.eqb (lower (strip s)) "true");
    [intro H; injection H as <- <-; right; split; [discriminate|reflexivity]|].
  destruct (String.eqb (lower (strip s)) "false");
    [intro H; injection H as <- <-; right; split; [discriminate|reflexivity]|].
  destruct (String.eqb_spec (strip s) s) as [E|E]; simpl;
    intro H; injection H as <- <-.
  - now left.
  - right. split; [congruence|reflexivity].
Qed.

Lemma default_pipeline_at_most_once key v v' c :
  Stated.gated_pipeline (_corrections new) key v = Ok (v', c) ->
  v' = v /\ c = 0 \/ v' <> v /\ c = 1.
Proof.
  intro Hp.
  pose proof (apply_corrections_gated (_corrections new) key v 0) as Ha.
  rewrite Hp in Ha. cbn [bind Nat.add] in Ha.
  exact (default_chain_at_most_once _ _ _ Ha).
Qed.

(** X3.  With the default rules the fix count of [correct_properties] is at
    most the number of keys, and it is 0 exactly when the corrected map is
    the input map. *)
Theorem X3_fix_count_bounds (d : dict) (out : value) (n : nat) :
  NoDup (keys d) ->
  correct_properties new (VDict d) = Ok (out, n) ->
  n <= List.length d /\ (n = 0 <-> out = VDict d).
Proof.
  intros Hnd. rewrite (@correct_properties_outcome new d Hnd).
  pose proof default_pipeline_at_most_once as Hone.
  set (rules := _corrections new) in *. clearbody rules. clear Hnd.
  unfold Stated.outcome.
  destruct (Stated.through_keys (Stated.gated_pipeline rules) d)
    as [[c t]|e] eqn:E; cbn [bind]; [|discriminate].
  intro H. injection H as <- <-.
  revert c t E.
  induction d as [|[k v] d IH]; intros c t; cbn [Stated.through_keys].
  - intro H. injection H as <- <-. split; [simpl; lia|]. split; reflexivity.
  - destruct (Stated.gated_pipeline rules k v) as [[v' c1]|e] eqn:Ek;
      cbn [bind]; [|discriminate].
    destruct (Stated.through_keys (Stated.gated_pipeline rules) d)
      as [[c' t']|e]; cbn [bind]; [|discriminate].
    intro H. injection H as <- <-.
    destruct (IH c' t' eq_refl) as [IHle IHiff].
    destruct (Hone k v v' c1 Ek) as [[-> ->]|[Hne ->]]; cbn [List.length].
    + split; [lia|]. cbn [Nat.add]. rewrite IHiff. split; intro H.
      * injection H as ->. reflexivity.
      * injection H as H. now rewrite H.
    + split; [lia|]. split; [discriminate|].
      intro H. injection H as H _. contradiction.
Qed.

Lemma X3_fix_count_bounds_witness :
  exists out n,
    correct_properties new (VDict [("a", VStr " x "); ("b", VInt 1)])
    = Ok (out, n)
    /\ n <= 2 /\ (n = 0 <-> out = VDict [("a", VStr " x "); ("b", VInt 1)]).
Proof.
  do 2 eexists. split; [vm_compute; reflexivity|].
  apply (@X3_fix_count_bounds [("a", VStr " x "); ("b", VInt 1)]).
  - repeat constructor; simpl; intuition discriminate.
  - vm_compute; reflexivity.
Defined.

Lemma default_chain_stripped key v n s' n' :
  apply_corrections (_corrections new) key v n = Ok (VStr s', n') ->
  strip s' = s'.
Proof.
  destruct v as [| | | |s| |];
    try (rewrite default_chain_other by (intro; discriminate); discriminate).
  rewrite default_chain_str.
  destruct (re_match int_pattern (strip s)).
  { unfold bind. destruct (int_of_str (strip s)); discriminate. }
  destruct (re_match float_pattern (strip s)); [discriminate|].
  destruct (in_str_list (lower (strip s)) _); [discriminate|].
  destruct (String.eqb (lower (strip s)) "true"); [discriminate|].
  destruct (String.eqb (lower (strip s)) "false"); [discriminate|].
  destruct (String.eqb_spec (strip s) s) as [E|E]; simpl;
    intro H; injection H as <- _; [now rewrite E|apply strip_idem].
Qed.

(** X4.  Every string left in a map corrected with the default rules is
    free of leading and trailing whitespace: [strip] does not change it. *)
Theorem X4_output_strings_stripped (properties : value) (out : dict)
    (n : nat) (key s' : string) :
  correct_properties new properties = Ok (VDict out, n) ->
  In (key, VStr s') out ->
  strip s' = s'.
Proof.
  unfold correct_properties.
  destruct properties as [| | | | | |d]; try discriminate.
  destruct (correct_items (_corrections new) d [] 0)
    as [[corrected fixes]|e] eqn:E; cbn [bind]; [|discriminate].
  pose proof (@correct_items_Forall
                (fun v => forall s, v = VStr s -> strip s = s)
                (_corrections new)
                (fun k v m v' m' H s Hs =>
                   @default_chain_stripped k v m s m'
                     (eq_trans H (f_equal (fun x => Ok (x, m')) Hs)))
                d [] 0 corrected fixes (Forall_nil _) E) as Hall.
  intro H. injection H as <- _. intro Hin.
  rewrite Forall_forall in Hall. exact (Hall _ Hin s' eq_refl).
Qed.

Lemma X4_output_strings_stripped_witness : strip "Main St" = "Main St".
Proof.
  apply (@X4_output_strings_stripped
           (VDict [("name", VStr "  Main St "); ("n", VStr "7")])
           [("name", VStr "Main St"); ("n", VInt 7)] 2 "name" "Main St").
  - vm_compute; reflexivity.
  - simpl. auto.
Defined.

(** X5.  A map whose values are all non-strings (numbers, booleans, null,
    lists, nested mappings) comes back from the default rules as it is,
    with no fix. *)
Theorem X5_typed_values_untouched (d : dict) :
  NoDup (keys d) ->
  Forall (fun kv => forall s, snd kv <> VStr s) d ->
  correct_properties new (VDict d) = Ok (VDict d, 0).
Proof.
  intros Hnd Hns. unfold correct_properties.
  rewrite (@correct_items_settled d [] 0); [reflexivity| |exact Hnd].
  apply Forall_impl with (2 := Hns). intros [k v] Hv key n. simpl in *.
  now apply default_chain_other.
Qed.

Lemma X5_typed_values_untouched_witness :
  correct_properties new
    (VDict [("n", VInt 3); ("tags", VList [VStr " a "]);
            ("meta", VDict [("k", VStr "5")]); ("ok", VBool false)])
  = Ok (VDict [("n", VInt 3); ("tags", VList [VStr " a "]);
               ("meta", VDict [("k", VStr "5")]); ("ok", VBool false)], 0).
Proof.
  apply X5_typed_values_untouched.
  - repeat constructor; simpl; intuition discriminate.
  - repeat constructor; simpl; discriminate.
Defined.

(** X6.  A correction registered later runs after every correction
    registered before it, on the value they produced; its change, when it
    reports one, is one more fix.  It does not run when a correction
    before it raises. *)
Theorem X6_registered_rule_runs_last (self : t) (name : string)
    (func : correction) (key : string) (v : value) (n : nat) :
  apply_corrections (_corrections (register_correction self name func))
                    key v n
  = ('(current_value, total_fixes) <-
       apply_corrections (_corrections self) key v n ;;
     '(new_value, was_corrected) <- func key current_value ;;
     if (was_corrected : bool) then Ok (new_value, S total_fixes)
     else Ok (current_value, total_fixes)).
Proof.
  unfold register_correction. cbn [_corrections].
  rewrite apply_corrections_app.
  destruct (apply_corrections (_corrections self) key v n) as [[cv tf]|e];
    cbn [bind apply_corrections]; [|reflexivity].
  destruct (func key cv) as [[nv [|]]|e0]; reflexivity.
Qed.

End DefaultChain.

(* ================================================================== *)
(** * Integers written in decimal                                       *)
(* ================================================================== *)

Section DecimalIntegers.

Import PropertyCorrector.

(** ** What the integer pattern accepts *)

Lemma full_match_Void s : full_match Void s = false.
Proof. induction s; simpl; auto. Qed.

Lemma full_match_Cat_Void r s : full_match (Cat Void r) s = false.
Proof. induction s; simpl; auto. Qed.

Lemma full_match_Alt a b s :
  full_match (Alt a b) s = full_match a s || full_match b s.
Proof. revert a b. induction s as [|c s IH]; intros a b; simpl; auto. Qed.

Lemma full_match_Cat_Eps r s : full_match (Cat Eps r) s = full_match r s.
Proof.
  destruct s as [|c s]; simpl; [reflexivity|].
  now rewrite full_match_Alt, full_match_Cat_Void.
Qed.

Lemma full_match_Cat_Alt a b r s :
  full_match (Cat (Alt a b) r) s
  = full_match (Cat a r) s || full_match (Cat b r) s.
Proof.
  revert a b. induction s as [|c s IH]; intros a b; simpl.
  - now destruct (nullable a), (nullable b), (nullable r).
  - destruct (nullable a), (nullable b); simpl;
      rewrite ?full_match_Alt, IH;
      repeat match goal with
             | |- context [full_match ?x ?y] =>
                 destruct (full_match x y); simpl
             end; reflexivity.
Qed.

Lemma full_match_Star_Digit s : full_match (Star Digit) s = all_digits s.
Proof.
  unfold all_digits. induction s as [|c s IH]; simpl; [reflexivity|].
  destruct (is_digit c); simpl.
  - now rewrite full_match_Cat_Eps.
  - apply full_match_Cat_Void.
Qed.

Lemma full_match_Plus_Digit c s :
  full_match (Plus Digit) (String c s) = is_digit c && all_digits s.
Proof.
  simpl. destruct (is_digit c); simpl.
  - now rewrite full_match_Cat_Eps, full_match_Star_Digit.
  - apply full_match_Cat_Void.
Qed.

(** The integer pattern accepts an optional minus sign followed by one or
    more digits, and nothing else. *)
Lemma full_match_int_pattern c s :
  full_match int_pattern (String c s)
  = if Ascii.eqb "-" c
    then match s with
         | EmptyString => false
         | String c' s' => is_digit c' && all_digits s'
         end
    else is_digit c && all_digits s.
Proof.
  unfold int_pattern, Opt, Chr.
  change (full_match (Cat (Alt Eps (Class (Ascii.eqb "-"))) (Plus Digit))
            (String c s))
    with (full_match
            (Alt (Cat (Alt Void (if Ascii.eqb "-" c then Eps else Void))
                      (Plus Digit))
                 (deriv c (Plus Digit))) s).
  rewrite full_match_Alt, full_match_Cat_Alt, full_match_Cat_Void.
  change (full_match (deriv c (Plus Digit)) s)
    with (full_match (Plus Digit) (String c s)).
  rewrite full_match_Plus_Digit.
  destruct (Ascii.eqb_spec "-" c) as [<-|Hc]; simpl.
  - rewrite full_match_Cat_Eps. destruct s as [|c' s']; [reflexivity|].
    rewrite full_match_Plus_Digit. now rewrite orb_false_r.
  - now rewrite full_match_Cat_Void.
Qed.

(** ** The digits of a number *)

Lemma string_of_uint_digits d : all_digits (NilEmpty.string_of_uint d) = true.
Proof. unfold all_digits. induction d; simpl; auto. Qed.

Lemma span_all_digits s : all_digits s = true -> span_digits s = (s, EmptyString).
Proof.
  unfold all_digits. induction s as [|c s IH]; simpl; [reflexivity|].
  intro H. apply andb_true_iff in H. destruct H as [Hc Hs].
  now rewrite Hc, IH.
Qed.

Lemma digit_not_space c : is_digit c = true -> is_space c = false.
Proof.
  destruct c as [[|] [|] [|] [|] [|] [|] [|] [|]]; vm_compute; congruence.
Qed.

Lemma rstrip_digits s : all_digits s = true -> rstrip s = s.
Proof.
  unfold all_digits. induction s as [|c s IH]; simpl; [reflexivity|].
  intro H. apply andb_true_iff in H. destruct H as [Hc Hs].
  rewrite IH by exact Hs. destruct s; [|reflexivity].
  now rewrite digit_not_space.
Qed.

Lemma digits_value_acc d :
  forall acc,
    digits_value (Zpos acc) (NilEmpty.string_of_uint d)
    = Zpos (Pos.of_uint_acc d acc).
Proof.
  induction d; intro acc;
    cbn [NilEmpty.string_of_uint digits_value Pos.of_uint_acc];
    [reflexivity|..];
    match goal with
    | |- digits_value ?z _ = Zpos (Pos.of_uint_acc _ ?p) =>
        replace z with (Zpos p)
          by (match goal with
              | |- context [digit_value ?ch] =>
                  let v := eval vm_compute in (digit_value ch) in
                  change (digit_value ch) with v
              end; lia)
    end; apply IHd.
Qed.

Lemma digits_value_uint d :
  digits_value 0 (NilEmpty.string_of_uint d) = Z.of_N (Pos.of_uint d).
Proof.
  induction d;
    cbn [NilEmpty.string_of_uint digits_value Pos.of_uint Z.of_N];
    [reflexivity|exact IHd|..];
    match goal with
    | |- digits_value ?z _ = Zpos (Pos.of_uint_acc _ ?p) =>
        change z with (Zpos p)
    end; apply digits_value_acc.
Qed.

Lemma digits_value_to_uint p :
  digits_value 0 (NilEmpty.string_of_uint (Pos.to_uint p)) = Zpos p.
Proof.
  now rewrite digits_value_uint, DecimalPos.Unsigned.of_to.
Qed.

(** The decimal text of a positive number: one or more digits. *)
Lemma to_uint_text p :
  exists c s,
    NilEmpty.string_of_uint (Pos.to_uint p) = String c s
    /\ is_digit c = true /\ all_digits s = true.
Proof.
  pose proof (string_of_uint_digits (Pos.to_uint p)) as Hd.
  pose proof (DecimalPos.Unsigned.to_uint_nonnil p) as Hn.
  destruct (NilEmpty.string_of_uint (Pos.to_uint p)) as [|c s] eqn:E.
  - destruct (Pos.to_uint p); try discriminate. now destruct Hn.
  - unfold all_digits in Hd. simpl in Hd. apply andb_true_iff in Hd.
    exists c, s. now repeat split.
Qed.

(** The decimal text of an integer is free of whitespace, matches the
    integer pattern and denotes that integer. *)
Lemma string_of_Z_reads (z : Z) :
  strip (string_of_Z z) = string_of_Z z
  /\ re_match int_pattern (string_of_Z z) = true
  /\ decimal_value (string_of_Z z) = z.
Proof.
  unfold string_of_Z.
  destruct z as [|p|p]; [now repeat split|..]; simpl Z.to_int;
    simpl NilEmpty.string_of_int;
    destruct (to_uint_text p) as (c & s & E & Hc & Hs);
    pose proof (digits_value_to_uint p) as Hval; rewrite E in *.
  - split; [|split].
    + unfold strip. simpl lstrip. rewrite (digit_not_space _ Hc).
      apply rstrip_digits. unfold all_digits. simpl. now rewrite Hc.
    + unfold re_match. rewrite full_match_int_pattern.
      assert (Hminus : Ascii.eqb "-" c = false).
      { destruct (Ascii.eqb_spec "-" c) as [<-|]; [discriminate Hc|easy]. }
      now rewrite Hminus, Hc, Hs.
    + unfold decimal_value.
      assert (Hsign : split_sign (String c s) = (false, String c s)).
      { unfold split_sign.
        destruct c as [[|] [|] [|] [|] [|] [|] [|] [|]];
          try reflexivity; discriminate Hc. }
      rewrite Hsign. rewrite span_all_digits
        by (unfold all_digits; simpl; now rewrite Hc).
      simpl fst. now rewrite Hval.
  - split; [|split].
    + unfold strip. simpl lstrip.
      change (rstrip (String "-" (String c s)))
        with (match rstrip (String c s) with
              | EmptyString => String "-" EmptyString
              | r => String "-" r
              end).
      rewrite rstrip_digits; [reflexivity|].
      unfold all_digits. simpl. now rewrite Hc.
    + unfold re_match. rewrite full_match_int_pattern.
      simpl Ascii.eqb. cbv iota. now rewrite Hc, Hs.
    + unfold decimal_value.
      change (split_sign (String "-" (String c s)))
        with (true, String c s).
      cbv beta iota.
      rewrite span_all_digits by (unfold all_digits; simpl; now rewrite Hc).
      simpl fst. now rewrite Hval.
Qed.

(** X7.  The decimal text of an integer is corrected back to that integer
    when it has no more digits than [int] takes, 4300: the numeric rule
    then turns [str(z)] into [z], and the default chain counts it as one
    fix. *)
Theorem X7_integer_round_trip (key : string) (z : Z) (n : nat) :
  digit_count (string_of_Z z) <= int_max_str_digits ->
  _fix_numeric_string key (VStr (string_of_Z z)) = Ok (VInt z, true)
  /\ apply_corrections (_corrections new) key (VStr (string_of_Z z)) n
     = Ok (VInt z, S n).
Proof.
  intro Hshort.
  destruct (string_of_Z_reads z) as (Hstrip & Hmatch & Hval).
  split.
  - unfold _fix_numeric_string. rewrite Hstrip, Hmatch.
    rewrite (int_of_str_short _ Hshort). cbn [bind]. now rewrite Hval.
  - rewrite default_chain_str, Hstrip, Hmatch.
    rewrite (int_of_str_short _ Hshort). cbn [bind]. now rewrite Hval.
Qed.

End DecimalIntegers.

Lemma X7_integer_round_trip_witness :
  PropertyCorrector._fix_numeric_string "a" (VStr "-12345")
  = Ok (VInt (-12345), true)
  /\ PropertyCorrector.apply_corrections
       (PropertyCorrector._corrections PropertyCorrector.new) "a"
       (VStr "-12345") 0
     = Ok (VInt (-12345), 1).
Proof.
  apply (@X7_integer_round_trip "a" (-12345)%Z 0).
  apply Nat.leb_le. vm_compute. reflexivity.
Defined.

(* ================================================================== *)
(** * More on the geometry adapter                                      *)
(* ================================================================== *)

Section GeometryAdapterMore.

Context {engine : GeometryEngine}.
Import GeometryCorrector.

(** X8.  [correct_geometry] reports [was_corrected = true] exactly when the
    engine built the geometry, found it invalid, explained it, repaired it
    into a valid geometry and re-encoded that: the geometry returned is then
    the re-encoded repair and the message is "Fixed: " followed by the
    explanation.  In every other case the geometry returned is the input. *)
Theorem X8_was_corrected (geometry out : value) (was_corrected : bool)
    (message : string) :
  correct_geometry geometry = Ok (out, was_corrected, message) ->
  (was_corrected = false -> out = geometry)
  /\ (was_corrected = true <->
      exists g issue g',
        shape geometry = Ok g /\ is_valid g = Ok false
        /\ explain_validity g = Ok issue /\ make_valid g = Ok g'
        /\ is_valid g' = Ok true /\ mapping g' = Ok out
        /\ message = "Fixed: " ++ issue).
Proof.
  unfold correct_geometry, try_except, bind.
  destruct (shape geometry) as [g|e0] eqn:Hs.
  2:{ intro H. injection H as <- <- <-. split; [reflexivity|].
      split; [discriminate|]. intros (? & ? & ? & H & _). discriminate H. }
  destruct (is_valid g) as [[|]|e0] eqn:Hv.
  1,3: intro H; injection H as <- <- <-; (split; [reflexivity|]);
    (split; [discriminate|]); intros (g0 & ? & ? & H1 & H2 & _);
    injection H1 as <-; congruence.
  destruct (explain_validity g) as [issue|e0] eqn:He.
  2:{ intro H. injection H as <- <- <-. split; [reflexivity|].
      split; [discriminate|].
      intros (g0 & ? & ? & H1 & _ & H3 & _). injection H1 as <-. congruence. }
  destruct (make_valid g) as [g'|e0] eqn:Hm.
  2:{ intro H. injection H as <- <- <-. split; [reflexivity|].
      split; [discriminate|].
      intros (g0 & ? & ? & H1 & _ & _ & H4 & _). injection H1 as <-.
      congruence. }
  destruct (is_valid g') as [[|]|e0] eqn:Hv'.
  2,3: intro H; injection H as <- <- <-; (split; [reflexivity|]);
    (split; [discriminate|]);
    intros (g0 & ? & g1 & H1 & _ & _ & H4 & H5 & _);
    injection H1 as <-; rewrite Hm in H4; injection H4 as <-; congruence.
  destruct (mapping g') as [m|e0] eqn:Hmap.
  - intro H. injection H as <- <- <-. split; [discriminate|].
    split; [intros _|reflexivity]. exists g, issue, g'. now repeat split.
  - intro H. injection H as <- <- <-. split; [reflexivity|].
    split; [discriminate|].
    intros (g0 & ? & g1 & H1 & _ & _ & H4 & _ & H6 & _).
    injection H1 as <-. rewrite Hm in H4. injection H4 as <-. congruence.
Qed.

(** X9.  [validate_geometry] returns for every geometry.  It accepts a
    geometry, with the explanation "Valid", exactly when [correct_geometry]
    gives it back unchanged as "Geometry was already valid". *)
Theorem X9_validate_agrees_with_correct (geometry : value) :
  exists valid explanation,
    validate_geometry geometry = Ok (valid, explanation)
    /\ (valid = true -> explanation = "Valid")
    /\ (valid = true <->
        correct_geometry geometry
        = Ok (geometry, false, "Geometry was already valid")).
Proof.
  unfold validate_geometry, correct_geometry, try_except, bind.
  destruct (shape geometry) as [g|e0];
    [|do 2 eexists; split; [reflexivity|];
      split; [discriminate|]; split; [discriminate|];
      intro H; discriminate H].
  destruct (is_valid g) as [[|]|e0].
  - do 2 eexists. split; [reflexivity|]. now repeat split.
  - destruct (explain_validity g) as [issue|e0];
      [|do 2 eexists; split; [reflexivity|];
        split; [discriminate|]; split; [discriminate|];
        intro H; discriminate H].
    do 2 eexists. split; [reflexivity|]. split; [discriminate|].
    split; [discriminate|].
    destruct (make_valid g) as [g'|e0]; [|intro H; discriminate H].
    destruct (is_valid g') as [[|]|e0];
      [destruct (mapping g')|..]; intro H; discriminate H.
  - do 2 eexists. split; [reflexivity|]. split; [discriminate|].
    split; [discriminate|]. intro H; discriminate H.
Qed.

End GeometryAdapterMore.

(** A polygon the stub engine repairs into a multi-polygon. *)
Lemma X8_was_corrected_witness :
  exists g issue g',
    @shape Stub.engine (VDict [("type", VStr "Polygon")]) = Ok g
    /\ @is_valid Stub.engine g = Ok false
    /\ @explain_validity Stub.engine g = Ok issue
    /\ @make_valid Stub.engine g = Ok g'
    /\ @is_valid Stub.engine g' = Ok true
    /\ @mapping Stub.engine g' = Ok (VDict [("type", VStr "MultiPolygon")])
    /\ "Fixed: Self-intersection" = "Fixed: " ++ issue.
Proof.
  apply (proj1 (proj2 (@X8_was_corrected Stub.engine
                         (VDict [("type", VStr "Polygon")])
                         (VDict [("type", VStr "MultiPolygon")])
                         true "Fixed: Self-intersection" eq_refl))).
  reflexivity.
Defined.

(* ================================================================== *)
(** * More on the feature corrector                                     *)
(* ================================================================== *)

Section FeatureCorrectorMore.

Context {engine : GeometryEngine}.
Variable self : GeoJSONCorrector.t.
Import GeoJSONCorrector.

(** [correct_feature] on a mapping, step by step: the geometry step always
    goes through, and the property step decides the outcome. *)
Lemma correct_feature_cases (f : dict) (idx : nat) :
  exists cf1 was_corrected message,
    (get f "geometry" = VNone /\ cf1 = feature_skeleton f
     /\ was_corrected = false /\ message = ""
     \/ get f "geometry" <> VNone
        /\ exists corrected_geom,
            GeometryCorrector.correct_geometry (get f "geometry")
            = Ok (corrected_geom, was_corrected, message)
            /\ cf1 = dict_set (feature_skeleton f) "geometry" corrected_geom)
    /\ correct_feature self (VDict f) idx
       = match PropertyCorrector.correct_properties (property_corrector self)
                 (get f "properties") with
         | Ok (corrected_props, prop_fixes) =>
             Ok (VDict (dict_set cf1 "properties" corrected_props),
                 mkDetail idx was_corrected message prop_fixes)
         | Raise e => Raise e
         end.
Proof.
  unfold correct_feature.
  change (copy_other_keys ["type"; "properties"; "geometry"] f
            [("type", VStr "Feature"); ("properties", get f "properties");
             ("geometry", get f "geometry")])
    with (feature_skeleton f).
  generalize (feature_skeleton f). intro cf0.
  destruct (get f "geometry") eqn:Hg.
  1:{ exists cf0, false, "". split; [left; now repeat split|].
      unfold bind.
      now destruct (PropertyCorrector.correct_properties _ _) as [[p n]|e]. }
  all: match goal with
       | |- context [GeometryCorrector.correct_geometry ?g] =>
           destruct (correct_geometry_returns g) as [[[cg wc] msg] Hcg]
       end;
    exists (dict_set cf0 "geometry" cg), wc, msg;
    (split; [right; split; [discriminate|]; exists cg; now split|]);
    rewrite Hcg; unfold bind;
    now destruct (PropertyCorrector.correct_properties _ _) as [[p n]|e].
Qed.

(** X10.  The only ways [correct_feature] raises: the feature is not a
    mapping ([.get] fails), its [properties] is neither absent, null nor a
    mapping ([.items] fails), or a correction raises on one of its
    properties.  With the default corrections the last happens exactly when
    a property is a string that reads as an integer of more than 4300
    digits, and the error is the [ValueError] of [int] on the first such
    property.  No geometry makes it raise. *)
Theorem X10_correct_feature_failures (feature : value) (idx : nat) (e : exn) :
  (correct_feature self feature idx = Raise e <->
   (is_dict feature = false /\ e = no_attribute feature "get")
   \/ (exists f,
          feature = VDict f
          /\ get f "properties" <> VNone
          /\ is_dict (get f "properties") = false
          /\ e = no_attribute (get f "properties") "items")
   \/ (exists f p,
          feature = VDict f
          /\ get f "properties" = VDict p
          /\ PropertyCorrector.correct_properties (property_corrector self)
               (VDict p) = Raise e))
  /\ (property_corrector self = PropertyCorrector.new ->
      forall p,
        PropertyCorrector.correct_properties (property_corrector self)
          (VDict p) = Raise e <->
        exists pre k s post,
          p = (pre ++ (k, VStr s) :: post)%list
          /\ Forall (fun kv => overlong (snd kv) = false) pre
          /\ overlong (VStr s) = true
          /\ e = int_too_long (digit_count (strip s))).
Proof.
  split; [|intros Hnew p; rewrite Hnew; apply correct_properties_new_raises].
  destruct feature as [| | | | | |f];
    try (simpl; split;
         [intro H; injection H as <-; left; now split
         |intros [[_ ->]|[(f1 & H & _)|(f1 & p1 & H & _)]];
          [reflexivity|discriminate H|discriminate H]]).
  destruct (correct_feature_cases f idx) as (cf1 & wc & msg & _ & ->).
  destruct (get f "properties") as [| | | | | |p] eqn:Hp.
  1:{ cbn [PropertyCorrector.correct_properties].
      split; [discriminate|].
      intros [[H _]|[(f1 & H & Hn & _)|(f1 & p1 & H & Hp1 & _)]];
        [discriminate H| |]; injection H as <-.
      - now rewrite Hp in Hn.
      - rewrite Hp in Hp1. discriminate Hp1. }
  6:{ destruct (PropertyCorrector.correct_properties (property_corrector self)
                  (VDict p)) as [[cp n]|e0] eqn:Hcp.
      - split; [discriminate|].
        intros [[H _]|[(f1 & H & _ & Hd & _)|(f1 & p1 & H & Hp1 & Hr)]];
          [discriminate H| |]; injection H as <-.
        + rewrite Hp in Hd. discriminate Hd.
        + rewrite Hp in Hp1. injection Hp1 as <-. congruence.
      - split.
        + intro H. injection H as <-. right. right. exists f, p.
          now repeat split.
        + intros [[H _]|[(f1 & H & _ & Hd & _)|(f1 & p1 & H & Hp1 & Hr)]];
            [discriminate H| |]; injection H as <-.
          * rewrite Hp in Hd. discriminate Hd.
          * rewrite Hp in Hp1. injection Hp1 as <-. congruence. }
  all: cbn [PropertyCorrector.correct_properties]; split;
    [intro H; injection H as <-; right; left; exists f; rewrite Hp;
     repeat split; discriminate
    |intros [[H _]|[(f1 & H & _ & _ & ->)|(f1 & p1 & H & Hp1 & _)]];
     [discriminate H| |]; injection H as <-;
     [now rewrite Hp|rewrite Hp in Hp1; discriminate Hp1]].
Qed.

(** X11.  The detail [correct_feature] returns reports what was done: it
    bears the index given, the fix count of [correct_properties], and the
    outcome and message of [correct_geometry]; for a null or absent
    geometry it reports no geometry correction and an empty message. *)
Theorem X11_detail_reports (f : dict) (idx : nat) (out : value)
    (dt : FeatureDetail) :
  correct_feature self (VDict f) idx = Ok (out, dt) ->
  feature_index dt = idx
  /\ (exists corrected_props,
         PropertyCorrector.correct_properties (property_corrector self)
           (get f "properties") = Ok (corrected_props, properties_fixes dt))
  /\ (get f "geometry" = VNone ->
      geometry_corrected dt = false /\ geometry_message dt = "")
  /\ (get f "geometry" <> VNone ->
      exists corrected_geom,
        GeometryCorrector.correct_geometry (get f "geometry")
        = Ok (corrected_geom, geometry_corrected dt, geometry_message dt)).
Proof.
  destruct (correct_feature_cases f idx) as (cf1 & wc & msg & Hgeo & ->).
  destruct (PropertyCorrector.correct_properties _ _) as [[p n]|e];
    [|discriminate].
  intro H. injection H as _ <-. simpl.
  split; [reflexivity|]. split; [now exists p|].
  destruct Hgeo as [(Hg & _ & -> & ->)|(Hg & cg & Hcg & _)].
  - split; [now split|]. intro Hn. contradiction.
  - split; [intro Hn; contradiction|]. intros _. now exists cg.
Qed.

(** The keys after the copying loop: those the output had, then the keys of
    the source outside [skip], in the source's order. *)
Lemma copy_loop_keys (skip : list string) (src : dict) :
  forall (ks : list string) (dst : dict),
    NoDup ks ->
    (forall k, In k ks -> in_str_list k skip = false -> ~ In k (keys dst)) ->
    keys (fold_left
            (fun dst key =>
               if negb (in_str_list key skip)
               then dict_set dst key (get src key) else dst)
            ks dst)
    = (keys dst
       ++ filter (fun k => negb (in_str_list k skip)) ks)%list.
Proof.
  induction ks as [|k0 ks IH]; intros dst Hnd Hfresh; simpl.
  - now rewrite app_nil_r.
  - inversion Hnd as [|? ? Hk0 Hks]; subst.
    destruct (in_str_list k0 skip) eqn:Hskip; simpl.
    + apply IH; [exact Hks|]. intros k Hk. apply Hfresh. now right.
    + rewrite IH; [|exact Hks|].
      * rewrite keys_dict_set_fresh by (apply Hfresh; [now left|exact Hskip]).
        unfold keys. rewrite map_app. simpl. now rewrite <- app_assoc.
      * intros k Hk Hs.
        rewrite keys_dict_set_fresh by (apply Hfresh; [now left|exact Hskip]).
        unfold keys. rewrite map_app. simpl. intro Hin.
        apply in_app_or in Hin. destruct Hin as [Hin|[->|[]]].
        -- revert Hin. apply Hfresh; [now right|exact Hs].
        -- contradiction.
Qed.

Lemma copy_other_keys_keys (skip : list string) (src dst : dict) :
  NoDup (keys src) ->
  (forall k, In k (keys dst) -> in_str_list k skip = true) ->
  keys (copy_other_keys skip src dst)
  = (keys dst
     ++ filter (fun k => negb (in_str_list k skip)) (keys src))%list.
Proof.
  intros Hnd Hdst. unfold copy_other_keys. apply copy_loop_keys; [exact Hnd|].
  intros k _ Hs Hin. apply Hdst in Hin. congruence.
Qed.

Lemma keys_dict_set_present (d : dict) k v :
  In k (keys d) -> keys (dict_set d k v) = keys d.
Proof.
  intro Hin. rewrite keys_dict_set.
  apply in_str_list_In in Hin. now rewrite Hin.
Qed.

(** X12.  The keys of a corrected feature are [type], [properties] and
    [geometry], in that order, followed by the other keys of the input in
    the input's order. *)
Theorem X12_corrected_feature_keys (f : dict) (idx : nat) (cf : dict)
    (dt : FeatureDetail) :
  NoDup (keys f) ->
  correct_feature self (VDict f) idx = Ok (VDict cf, dt) ->
  keys cf
  = ("type" :: "properties" :: "geometry"
     :: filter (fun k => negb (in_str_list k feature_keys)) (keys f))%list.
Proof.
  intros Hnd.
  destruct (correct_feature_cases f idx) as (cf1 & wc & msg & Hgeo & ->).
  destruct (PropertyCorrector.correct_properties _ _) as [[p n]|e];
    [|discriminate].
  intro H. injection H as <- _.
  assert (Hsk : keys (feature_skeleton f)
                = ("type" :: "properties" :: "geometry"
                   :: filter (fun k => negb (in_str_list k feature_keys))
                        (keys f))%list).
  { unfold feature_skeleton. rewrite copy_other_keys_keys; [reflexivity|exact Hnd|].
    intros k Hk. apply in_str_list_In. exact Hk. }
  assert (Hcf1 : keys cf1 = keys (feature_skeleton f)).
  { destruct Hgeo as [(_ & -> & _)|(_ & cg & _ & ->)]; [reflexivity|].
    apply keys_dict_set_present. rewrite Hsk. simpl. auto. }
  rewrite keys_dict_set_present; [now rewrite Hcf1|].
  rewrite Hcf1, Hsk. simpl. auto.
Qed.

End FeatureCorrectorMore.

(** A Feature whose [properties] is a list, and one with a property of
    4301 digits after a property that is fine. *)
Lemma X10_correct_feature_failures_witness :
  GeoJSONCorrector.correct_feature (engine := Stub.engine)
    GeoJSONCorrector.new
    (VDict [("type", VStr "Feature"); ("properties", VList [])]) 4
  = Raise (no_attribute (VList []) "items")
  /\ GeoJSONCorrector.correct_feature (engine := Stub.engine)
       GeoJSONCorrector.new
       (VDict [("type", VStr "Feature");
               ("properties",
                VDict [("a", VStr " 7 "); ("b", VStr (Stub.ones 4301))])]) 4
     = Raise (int_too_long 4301).
Proof.
  split.
  - apply (proj2 (proj1 (@X10_correct_feature_failures Stub.engine
                           GeoJSONCorrector.new
                           (VDict [("type", VStr "Feature");
                                   ("properties", VList [])])
                           4 (no_attribute (VList []) "items")))).
    right. left. eexists. split; [reflexivity|]. repeat split; discriminate.
  - destruct (@X10_correct_feature_failures Stub.engine
                GeoJSONCorrector.new
                (VDict [("type", VStr "Feature");
                        ("properties",
                         VDict [("a", VStr " 7 ");
                                ("b", VStr (Stub.ones 4301))])])
                4 (int_too_long 4301)) as [Hiff Hnew].
    apply (proj2 Hiff). right. right.
    exists [("type", VStr "Feature");
            ("properties",
             VDict [("a", VStr " 7 "); ("b", VStr (Stub.ones 4301))])],
           [("a", VStr " 7 "); ("b", VStr (Stub.ones 4301))].
    split; [reflexivity|]. split; [reflexivity|].
    apply (proj2 (Hnew eq_refl _)).
    exists [("a", VStr " 7 ")], "b", (Stub.ones 4301), [].
    split; [reflexivity|].
    split; [constructor; [vm_compute; reflexivity|constructor]|].
    split; vm_compute; reflexivity.
Defined.

Lemma X11_detail_reports_witness :
  exists out dt,
    GeoJSONCorrector.correct_feature (engine := Stub.engine)
      GeoJSONCorrector.new
      (VDict [("type", VStr "Feature");
              ("properties", VDict [("a", VStr "1"); ("b", VStr " x")])]) 2
    = Ok (out, dt)
    /\ feature_index dt = 2
    /\ geometry_corrected dt = false /\ geometry_message dt = "".
Proof.
  do 2 eexists. split; [vm_compute; reflexivity|].
  match goal with
  | |- feature_index ?d = _ /\ _ =>
      destruct (@X11_detail_reports Stub.engine GeoJSONCorrector.new
                  [("type", VStr "Feature");
                   ("properties", VDict [("a", VStr "1"); ("b", VStr " x")])]
                  2 _ d eq_refl) as (Hi & _ & Hnone & _)
  end.
  split; [exact Hi|]. exact (Hnone eq_refl).
Defined.

Lemma X12_corrected_feature_keys_witness :
  exists cf dt,
    GeoJSONCorrector.correct_feature (engine := Stub.engine)
      GeoJSONCorrector.new
      (VDict [("id", VInt 1); ("geometry", VNone); ("type", VStr "Feature");
              ("bbox", VList [])]) 0
    = Ok (VDict cf, dt)
    /\ keys cf = ["type"; "properties"; "geometry"; "id"; "bbox"].
Proof.
  do 2 eexists. split; [vm_compute; reflexivity|].
  eapply (@X12_corrected_feature_keys Stub.engine GeoJSONCorrector.new
            [("id", VInt 1); ("geometry", VNone); ("type", VStr "Feature");
             ("bbox", VList [])] 0).
  - repeat constructor; simpl; intuition discriminate.
  - vm_compute; reflexivity.
Defined.

(* ================================================================== *)
(** * More on the document corrector                                    *)
(* ================================================================== *)

Section DocumentCorrectorMore.

Context {engine : GeometryEngine}.
Variable repr : value -> string.
Variable self : GeoJSONCorrector.t.
Import GeoJSONCorrector.

Lemma eq_str_true v s : eq_str v s = true <-> v = VStr s.
Proof.
  destruct v; simpl; try (split; discriminate).
  rewrite String.eqb_eq. split; congruence.
Qed.

(** A geometry type name is neither [FeatureCollection] nor [Feature]. *)
Lemma geometry_type_dispatch v :
  in_strs v geometry_type_names = true ->
  eq_str v "FeatureCollection" = false /\ eq_str v "Feature" = false.
Proof.
  destruct v as [| | | |s| |]; try discriminate. intro H. simpl.
  split.
  - destruct (String.eqb_spec s "FeatureCollection") as [->|];
      [discriminate H|reflexivity].
  - destruct (String.eqb_spec s "Feature") as [->|];
      [discriminate H|reflexivity].
Qed.

Lemma len_iter v n items :
  len v = Ok n -> iter v = Ok items -> List.length items = n.
Proof.
  destruct v; simpl; try discriminate.
  - intros H1 H2. injection H1 as <-. injection H2 as <-.
    induction s; simpl; auto.
  - intros H1 H2. injection H1 as <-. now injection H2 as <-.
  - intros H1 H2. injection H1 as <-. injection H2 as <-.
    unfold keys. now rewrite !length_map.
Qed.

Lemma count_fixes_geometry r d :
  geometry_issues_fixed (count_fixes r d)
  = geometry_issues_fixed r + (if geometry_corrected d then 1 else 0).
Proof. unfold count_fixes. destruct (geometry_corrected d); simpl; lia. Qed.

Lemma count_fixes_property r d :
  property_issues_fixed (count_fixes r d)
  = property_issues_fixed r + properties_fixes d.
Proof. unfold count_fixes. now destruct (geometry_corrected d). Qed.

(** What the collection loop does to the counters and to the details. *)
Lemma correct_features_counts :
  forall fs idx acc r acc' r',
    correct_features self idx fs acc r = (acc', r') ->
    exists ds,
      details r' = (details r ++ ds)%list
      /\ geometry_issues_fixed r'
         = geometry_issues_fixed r
           + List.length (filter geometry_corrected ds)
      /\ property_issues_fixed r'
         = property_issues_fixed r + list_sum (map properties_fixes ds)
      /\ List.length ds <= List.length fs
      /\ List.length acc' = List.length acc + List.length fs
      /\ StronglySorted lt (map feature_index ds)
      /\ Forall (fun dt => idx <= feature_index dt
                           /\ feature_index dt < idx + List.length fs) ds.
Proof.
  induction fs as [|f fs IH]; intros idx acc r acc' r' H; simpl in H.
  - injection H as <- <-. exists []. rewrite app_nil_r. simpl.
    repeat split; auto; try lia; constructor.
  - destruct (correct_feature self f idx) as [[cf dt]|e] eqn:Hcf.
    + destruct (IH _ _ _ _ _ H) as (ds & Hd & Hg & Hp & Hl & Ha & Hs & Hb).
      rewrite count_fixes_details in Hd. rewrite count_fixes_geometry in Hg.
      rewrite count_fixes_property in Hp. simpl in Hd, Hg, Hp.
      rewrite <- app_assoc in Hd. rewrite length_app in Ha. simpl in Ha.
      pose proof Hcf as Hidx. apply correct_feature_index in Hidx.
      exists (dt :: ds). split; [exact Hd|].
      split; [simpl; destruct (geometry_corrected dt); simpl; lia|].
      split; [simpl; lia|].
      split; [simpl; lia|].
      split; [simpl; lia|].
      split.
      * simpl. constructor; [exact Hs|].
        rewrite Forall_map. apply Forall_impl with (2 := Hb).
        intros d0 [H1 _]. lia.
      * constructor; [simpl; lia|].
        apply Forall_impl with (2 := Hb). intros d0 [H1 H2]. simpl. lia.
    + destruct (IH _ _ _ _ _ H) as (ds & Hd & Hg & Hp & Hl & Ha & Hs & Hb).
      simpl in Hd, Hg, Hp. rewrite length_app in Ha. simpl in Ha.
      exists ds. split; [exact Hd|]. split; [exact Hg|]. split; [exact Hp|].
      split; [simpl; lia|]. split; [simpl; lia|]. split; [exact Hs|].
      apply Forall_impl with (2 := Hb). intros d0 [H1 H2]. simpl. lia.
Qed.

(** What holds of every result [correct_geojson] returns. *)
Lemma correct_geojson_result (doc out : value) (r : CorrectionResult) :
  correct_geojson repr self doc = Ok (out, r) ->
  geometry_issues_fixed r = List.length (filter geometry_corrected (details r))
  /\ property_issues_fixed r = list_sum (map properties_fixes (details r))
  /\ List.length (details r) <= corrected_feature_count r
  /\ corrected_feature_count r <= original_feature_count r
  /\ StronglySorted lt (map feature_index (details r))
  /\ Forall (fun dt => feature_index dt < original_feature_count r)
            (details r).
Proof.
  unfold correct_geojson.
  destruct doc as [| | | | | |d]; try discriminate.
  destruct (eq_str (get d "type") "FeatureCollection").
  { unfold _correct_feature_collection, bind.
    destruct (len _) as [n|] eqn:Hlen; [|discriminate].
    destruct (iter _) as [items|] eqn:Hiter; [|discriminate].
    pose proof (len_iter _ Hlen Hiter) as Hn.
    destruct (correct_features self 0 items []
                (set_original_feature_count new_result n)) as [cfs r0] eqn:Hl.
    destruct (correct_features_counts _ _ _ _ Hl)
      as (ds & Hd & Hg & Hp & Hle & Ha & Hs & Hb).
    pose proof Hl as Hl2. apply correct_features_spec in Hl2; [|exact repr].
    destruct Hl2 as (? & ? & ? & _ & _ & _ & _ & Ho & _).
    simpl in Hd, Hg, Hp, Ha, Ho.
    intro H. injection H as _ <-. simpl. rewrite Hd, Hg, Hp, Ha, Ho.
    repeat split; auto; try lia.
    apply Forall_impl with (2 := Hb). intros d0 [_ H2]. simpl in H2. lia. }
  destruct (eq_str (get d "type") "Feature").
  { unfold _correct_single_feature, try_except, bind.
    destruct (correct_feature self (VDict d) 0) as [[cf dt]|e] eqn:Hcf;
      intro H; injection H as _ <-.
    - pose proof Hcf as Hidx. apply correct_feature_index in Hidx.
      cbn -[count_fixes].
      rewrite count_fixes_geometry, count_fixes_property, count_fixes_details,
        count_fixes_original.
      cbn. destruct (geometry_corrected dt); simpl;
        repeat split; auto; try lia;
        try (constructor; [simpl; lia|constructor]); repeat constructor.
    - cbn. repeat split; auto; constructor. }
  destruct (in_strs (get d "type") geometry_type_names).
  { unfold _correct_bare_geometry, try_except, bind.
    destruct (GeometryCorrector.correct_geometry (VDict d))
      as [[[g [|]] msg]|e]; intro H; injection H as _ <-; cbn;
      repeat split; auto; try lia;
      try (constructor; [simpl; lia|constructor]); repeat constructor. }
  intro H. injection H as _ <-. cbn. repeat split; auto; constructor.
Qed.

(** X13.  In every result of [correct_geojson] the two fix counters agree
    with the details: [geometry_issues_fixed] is the number of details with
    [geometry_corrected] set, and [property_issues_fixed] is the sum of
    their [properties_fixes]. *)
Theorem X13_counters_match_details (doc out : value) (r : CorrectionResult) :
  correct_geojson repr self doc = Ok (out, r) ->
  geometry_issues_fixed r = List.length (filter geometry_corrected (details r))
  /\ property_issues_fixed r = list_sum (map properties_fixes (details r)).
Proof.
  intro H. destruct (correct_geojson_result _ H) as (H1 & H2 & _).
  now split.
Qed.

(** X14.  In every result of [correct_geojson] there are at most as many
    details as features emitted, and at most as many features emitted as
    features seen. *)
Theorem X14_counts_ordered (doc out : value) (r : CorrectionResult) :
  correct_geojson repr self doc = Ok (out, r) ->
  List.length (details r) <= corrected_feature_count r
  /\ corrected_feature_count r <= original_feature_count r.
Proof.
  intro H. destruct (correct_geojson_result _ H) as (_ & _ & H3 & H4 & _).
  now split.
Qed.

(** X15.  The details of every result of [correct_geojson] are in feature
    order: their indices increase strictly, and each is below the number of
    features seen. *)
Theorem X15_details_in_feature_order (doc out : value)
    (r : CorrectionResult) :
  correct_geojson repr self doc = Ok (out, r) ->
  StronglySorted lt (map feature_index (details r))
  /\ Forall (fun dt => feature_index dt < original_feature_count r)
            (details r).
Proof.
  intro H. destruct (correct_geojson_result _ H) as (_ & _ & _ & _ & H5 & H6).
  now split.
Qed.

(** X16.  A bare geometry document always comes back with a result and no
    error: the geometry [correct_geometry] returns, both feature counts 1,
    one detail at index 0 with no property fix, and
    [geometry_issues_fixed] 1 or 0 as the geometry was repaired or not. *)
Theorem X16_bare_geometry (d : dict) :
  in_strs (get d "type") geometry_type_names = true ->
  exists out was_corrected message,
    GeometryCorrector.correct_geometry (VDict d)
    = Ok (out, was_corrected, message)
    /\ correct_geojson repr self (VDict d)
       = Ok (out,
             mkResult 1 1 (if was_corrected then 1 else 0) 0 [] []
                      [mkDetail 0 was_corrected message 0]).
Proof.
  intro Hty. destruct (geometry_type_dispatch _ Hty) as [Hfc Hf].
  unfold correct_geojson. rewrite Hfc, Hf, Hty.
  unfold _correct_bare_geometry, try_except, bind.
  destruct (correct_geometry_returns (VDict d)) as [[[out wc] msg] ->].
  exists out, wc, msg. split; [reflexivity|]. now destruct wc.
Qed.

(** X17.  The only ways [correct_geojson] raises: the document is not a
    mapping ([.get] fails), or it is a FeatureCollection whose [features]
    is null, a number or a boolean ([len] fails).  Every other document
    gets a result. *)
Theorem X17_correct_geojson_failures (doc : value) (e : exn) :
  correct_geojson repr self doc = Raise e <->
  (is_dict doc = false /\ e = no_attribute doc "get")
  \/ (exists d,
         doc = VDict d
         /\ get d "type" = VStr "FeatureCollection"
         /\ is_sized (get_default d "features" (VList [])) = false
         /\ len (get_default d "features" (VList [])) = Raise e).
Proof.
  destruct doc as [| | | | | |d];
    try (simpl; split;
         [intro H; injection H as <-; left; now split
         |intros [[_ ->]|(d0 & H & _)]; [reflexivity|discriminate H]]).
  unfold correct_geojson.
  destruct (eq_str (get d "type") "FeatureCollection") eqn:Hfc.
  - apply eq_str_true in Hfc.
    unfold _correct_feature_collection, bind.
    destruct (get_default d "features" (VList [])) as [| | | |s|l|fd] eqn:Hft;
      simpl len; simpl iter; cbv iota beta.
    1-4: split;
      [intro H; injection H as <-; right; exists d; rewrite Hft;
       split; [reflexivity|]; split; [exact Hfc|]; split; reflexivity
      |intros [[H _]|(d0 & Hd & _ & _ & H)];
       [discriminate H
       |injection Hd as <-; rewrite Hft in H; injection H as <-;
        reflexivity]].
    all: destruct (correct_features self 0 _ [] _);
      (split; [intro H; discriminate H|]);
      intros [[H _]|(d0 & Hd & _ & H & _)];
      [discriminate H|injection Hd as <-; rewrite Hft in H; discriminate H].
  - assert (Hnot : get d "type" <> VStr "FeatureCollection").
    { intro H. apply eq_str_true in H. congruence. }
    assert (Hok : exists x, (if eq_str (get d "type") "Feature"
                             then _correct_single_feature self d new_result
                             else if in_strs (get d "type") geometry_type_names
                             then _correct_bare_geometry d new_result
                             else Ok (VDict d,
                                      append_error new_result
                                        ("Unknown GeoJSON type: "
                                         ++ str repr (get d "type"))))
                            = Ok x).
    { destruct (eq_str (get d "type") "Feature").
      - unfold _correct_single_feature, try_except, bind.
        destruct (correct_feature self (VDict d) 0) as [[cf dt]|e0]; eauto.
      - destruct (in_strs (get d "type") geometry_type_names); [|eauto].
        unfold _correct_bare_geometry, try_except, bind.
        destruct (correct_geometry_returns (VDict d)) as [[[g wc] msg] ->].
        eauto. }
    destruct Hok as [x ->]. split; [discriminate|].
    intros [[H _]|(d0 & H & Hty & _)]; [discriminate H|].
    injection H as <-. contradiction.
Qed.

(** X23.  The keys of a corrected FeatureCollection are [type] and
    [features], in that order, followed by the other keys of the input in
    the input's order. *)
Theorem X23_corrected_collection_keys (d out : dict) (r : CorrectionResult) :
  NoDup (keys d) ->
  get d "type" = VStr "FeatureCollection" ->
  correct_geojson repr self (VDict d) = Ok (VDict out, r) ->
  keys out
  = ("type" :: "features"
     :: filter (fun k => negb (in_str_list k ["type"; "features"])) (keys d))%list.
Proof.
  intros Hnd Hty. unfold correct_geojson. rewrite Hty.
  change (eq_str (VStr "FeatureCollection") "FeatureCollection") with true.
  cbv iota. unfold _correct_feature_collection, bind.
  destruct (len _) as [n|]; [|discriminate].
  destruct (iter _) as [items|]; [|discriminate].
  destruct (correct_features self 0 items [] _) as [cfs r0].
  intro H. injection H as <- _.
  rewrite copy_other_keys_keys; [reflexivity|exact Hnd|].
  intros k Hk. apply in_str_list_In. exact Hk.
Qed.

End DocumentCorrectorMore.

Lemma X13_counters_match_details_witness :
  exists out r,
    GeoJSONCorrector.correct_geojson (engine := Stub.engine)
      (@repr Stub.codec) GeoJSONCorrector.new sample_collection = Ok (out, r)
    /\ geometry_issues_fixed r = 1 /\ property_issues_fixed r = 2
    /\ geometry_issues_fixed r
       = List.length (filter geometry_corrected (details r))
    /\ property_issues_fixed r = list_sum (map properties_fixes (details r)).
Proof.
  do 2 eexists. split; [vm_compute; reflexivity|].
  split; [reflexivity|]. split; [reflexivity|].
  eapply (@X13_counters_match_details Stub.engine (@repr Stub.codec)
            GeoJSONCorrector.new sample_collection).
  vm_compute; reflexivity.
Defined.

Lemma X14_counts_ordered_witness :
  exists out r,
    GeoJSONCorrector.correct_geojson (engine := Stub.engine)
      (@repr Stub.codec) GeoJSONCorrector.new sample_collection = Ok (out, r)
    /\ List.length (details r) = 2
    /\ List.length (details r) <= corrected_feature_count r
    /\ corrected_feature_count r <= original_feature_count r.
Proof.
  do 2 eexists. split; [vm_compute; reflexivity|].
  split; [reflexivity|].
  eapply (@X14_counts_ordered Stub.engine (@repr Stub.codec)
            GeoJSONCorrector.new sample_collection).
  vm_compute; reflexivity.
Defined.

Lemma X15_details_in_feature_order_witness :
  exists out r,
    GeoJSONCorrector.correct_geojson (engine := Stub.engine)
      (@repr Stub.codec) GeoJSONCorrector.new sample_collection = Ok (out, r)
    /\ map feature_index (details r) = [0; 2]
    /\ StronglySorted lt (map feature_index (details r))
    /\ Forall (fun dt => feature_index dt < original_feature_count r)
              (details r).
Proof.
  do 2 eexists. split; [vm_compute; reflexivity|].
  split; [reflexivity|].
  eapply (@X15_details_in_feature_order Stub.engine (@repr Stub.codec)
            GeoJSONCorrector.new sample_collection).
  vm_compute; reflexivity.
Defined.

Lemma X16_bare_geometry_witness :
  exists out was_corrected message,
    GeometryCorrector.correct_geometry (engine := Stub.engine)
      (VDict [("type", VStr "Polygon")]) = Ok (out, was_corrected, message)
    /\ GeoJSONCorrector.correct_geojson (engine := Stub.engine)
         (@repr Stub.codec) GeoJSONCorrector.new
         (VDict [("type", VStr "Polygon")])
       = Ok (out,
             mkResult 1 1 (if was_corrected then 1 else 0) 0 [] []
                      [mkDetail 0 was_corrected message 0]).
Proof.
  apply (@X16_bare_geometry Stub.engine (@repr Stub.codec)
           GeoJSONCorrector.new [("type", VStr "Polygon")]).
  reflexivity.
Defined.

Lemma X17_correct_geojson_failures_witness :
  GeoJSONCorrector.correct_geojson (engine := Stub.engine)
    (@repr Stub.codec) GeoJSONCorrector.new
    (VDict [("type", VStr "FeatureCollection"); ("features", VNone)])
  = Raise (mkExn TypeError "object of type 'NoneType' has no len()").
Proof.
  apply (proj2 (@X17_correct_geojson_failures Stub.engine (@repr Stub.codec)
                  GeoJSONCorrector.new
                  (VDict [("type", VStr "FeatureCollection");
                          ("features", VNone)])
                  (mkExn TypeError "object of type 'NoneType' has no len()"))).
  right. eexists. repeat split; reflexivity.
Defined.

(* ================================================================== *)
(** * More on the file-level functions                                  *)
(* ================================================================== *)

Section FacadeMore.

Context {engine : GeometryEngine} {codec : JsonCodec}.
Import Facade.

Lemma valid_geometry_unchanged (g : value) (i : nat) :
  Stated.issues_of g i = [] ->
  GeometryCorrector.correct_geometry g
  = Ok (g, false, "Geometry was already valid").
Proof.
  unfold Stated.issues_of, GeometryCorrector.validate_geometry,
    GeometryCorrector.correct_geometry, try_except, bind.
  destruct (shape g) as [gm|e]; [|discriminate].
  destruct (is_valid gm) as [[|]|e]; [reflexivity| |discriminate].
  destruct (explain_validity gm); discriminate.
Qed.

Lemma issues_of_truthy_index (g : value) (i j : nat) :
  Stated.issues_of_truthy g i = [] -> Stated.issues_of_truthy g j = [].
Proof.
  unfold Stated.issues_of_truthy, Stated.issues_of.
  destruct (truthy g); [|reflexivity].
  destruct (GeometryCorrector.validate_geometry g) as [[[|] m]|e];
    try reflexivity; discriminate.
Qed.

(** A feature whose geometry validation passes has no geometry fix. *)
Lemma clean_feature_no_fix self (f : dict) idx i out dt :
  GeoJSONCorrector.correct_feature self (VDict f) idx = Ok (out, dt) ->
  checked_geometry (get f "geometry") ->
  Stated.issues_of_truthy (get f "geometry") i = [] ->
  geometry_corrected dt = false.
Proof.
  destruct (correct_feature_cases self f idx) as (cf1 & wc & msg & Hgeo & ->).
  destruct (PropertyCorrector.correct_properties _ _) as [[p n]|e];
    [|discriminate].
  intro H. injection H as _ <-. simpl. intros Hchk Hiss.
  destruct Hgeo as [(_ & _ & -> & _)|(Hg & cg & Hcg & _)]; [reflexivity|].
  destruct Hchk as [Hn|Ht]; [contradiction|].
  unfold Stated.issues_of_truthy in Hiss. rewrite Ht in Hiss.
  rewrite (valid_geometry_unchanged _ _ Hiss) in Hcg. now injection Hcg.
Qed.

Lemma issues_of_features_nil (fs : list dict) :
  forall idx,
    Stated.issues_of_features Stated.issues_of_truthy idx fs = [] ->
    Forall (fun f => Stated.issues_of_truthy (get f "geometry") 0 = []) fs.
Proof.
  induction fs as [|f fs IH]; intros idx H; simpl in H; constructor.
  - apply app_eq_nil in H. destruct H as [H _].
    exact (issues_of_truthy_index _ _ _ H).
  - apply app_eq_nil in H. destruct H as [_ H]. exact (IH _ H).
Qed.

(** When the validation loop returns, every feature was a mapping. *)
Lemma validate_features_ok (fs : list value) :
  forall idx issues out,
    validate_features idx fs issues = Ok out ->
    exists fds, fs = map VDict fds.
Proof.
  induction fs as [|f fs IH]; intros idx issues out H.
  - now exists [].
  - simpl in H. destruct f as [| | | | | |fd]; try discriminate.
    rewrite check_geometry_issues in H. simpl in H.
    destruct (IH _ _ _ H) as [fds ->]. now exists (fd :: fds).
Qed.

(** When the validation loop raises: at the first feature that is not a
    mapping. *)
Lemma validate_features_raise (fs : list value) :
  forall idx issues e,
    validate_features idx fs issues = Raise e <->
    exists pre f post,
      fs = (map VDict pre ++ f :: post)%list
      /\ is_dict f = false /\ e = no_attribute f "get".
Proof.
  induction fs as [|f fs IH]; intros idx issues e.
  - simpl. split; [discriminate|].
    intros (pre & f & post & H & _). now destruct pre.
  - destruct f as [|b|z|fl|s|l|fd]; cbn [validate_features];
      try (split;
           [intro H; injection H as <-; exists []; do 2 eexists;
            now repeat split
           |intros ([|p pre] & f1 & post & H & Hd & ->);
            simpl in H; [now injection H as <- _|discriminate H]]).
    rewrite check_geometry_issues. cbn [bind]. rewrite IH. split.
    + intros (pre & f1 & post & -> & Hd & ->).
      exists (fd :: pre), f1, post. now repeat split.
    + intros ([|p pre] & f1 & post & H & Hd & ->); simpl in H.
      * injection H as <- _. discriminate Hd.
      * injection H as _ ->. exists pre, f1, post. now repeat split.
Qed.

Lemma filter_none (A : Type) (p : A -> bool) (l : list A) :
  Forall (fun x => p x = false) l -> filter p l = [].
Proof.
  induction 1 as [|x l Hx Hl IH]; simpl; [reflexivity|]. now rewrite Hx.
Qed.

(** Where the details of a collection result come from. *)
Lemma collection_details_origin rp self (d : dict) out r :
  get d "type" = VStr "FeatureCollection" ->
  GeoJSONCorrector.correct_geojson rp self (VDict d) = Ok (out, r) ->
  exists items,
    iter (get_default d "features" (VList [])) = Ok items
    /\ forall dt,
        In dt (details r) ->
        exists j f cf,
          nth_error items j = Some f
          /\ GeoJSONCorrector.correct_feature self f j = Ok (cf, dt).
Proof.
  intros Hty. unfold GeoJSONCorrector.correct_geojson. rewrite Hty.
  change (eq_str (VStr "FeatureCollection") "FeatureCollection") with true.
  cbv iota. unfold GeoJSONCorrector._correct_feature_collection, bind.
  destruct (len _) as [n|]; [|discriminate].
  destruct (iter _) as [items|]; [|discriminate].
  destruct (GeoJSONCorrector.correct_features self 0 items []
              (set_original_feature_count new_result n)) as [cfs r0] eqn:Hl.
  apply correct_features_spec in Hl; [|exact rp].
  destruct Hl as (outs & es & ds & _ & _ & _ & Hd & _ & _ & _ & Hds).
  intro H. injection H as _ <-. exists items. split; [reflexivity|].
  simpl. rewrite Hd. simpl. exact Hds.
Qed.

(** X18.  When the validation pass finds nothing, the correction of the
    same file repairs no geometry: if [validate_geojson_file] returns no
    issue, and no feature has a geometry that validation passes over (one
    that is not null yet false in a condition), then the result of
    [correct_geojson_file] has [geometry_issues_fixed = 0]. *)
Theorem X18_clean_validation_no_geometry_fix (file_content : content)
    (text : string) (d : dict) (out : string) (r : CorrectionResult) :
  decode file_content = Ok text ->
  json_loads text = Ok (VDict d) ->
  (forall items,
      get d "type" = VStr "FeatureCollection" ->
      iter (get_default d "features" (VList [])) = Ok items ->
      Forall (fun f => forall fd, f = VDict fd ->
                                  checked_geometry (get fd "geometry")) items) ->
  (get d "type" = VStr "Feature" -> checked_geometry (get d "geometry")) ->
  validate_geojson_file file_content = Ok [] ->
  correct_geojson_file file_content = Ok (out, r) ->
  geometry_issues_fixed r = 0.
Proof.
  intros Hdec Hload Hcoll Hfeat.
  unfold validate_geojson_file, correct_geojson_file.
  rewrite Hdec. cbn [bind]. rewrite Hload.
  destruct (GeoJSONCorrector.correct_geojson repr GeoJSONCorrector.new
              (VDict d)) as [[cd r0]|e] eqn:Hc; [|discriminate].
  intros Hval H. cbn [bind] in H. injection H as _ <-.
  destruct (eq_str (get d "type") "FeatureCollection") eqn:Hfc.
  { apply eq_str_true in Hfc.
    destruct (collection_details_origin _ _ _ Hfc Hc) as (items & Hit & Horg).
    rewrite Hit in Hval. cbn [bind] in Hval.
    destruct (validate_features_ok _ _ _ Hval) as [fds ->].
    rewrite validate_features_issues in Hval. injection Hval as Hval.
    apply issues_of_features_nil in Hval.
    specialize (Hcoll _ Hfc Hit).
    destruct (correct_geojson_result _ _ _ Hc) as (-> & _).
    rewrite filter_none; [reflexivity|].
    apply Forall_forall. intros dt Hdt.
    destruct (Horg dt Hdt) as (j & f & cf & Hj & Hok).
    assert (Hin : In f (map VDict fds)) by (eapply nth_error_In; eauto).
    apply in_map_iff in Hin. destruct Hin as (fd & <- & Hfd).
    rewrite Forall_forall in Hcoll, Hval.
    eapply clean_feature_no_fix; [exact Hok| |apply Hval; exact Hfd].
    apply (Hcoll (VDict fd)); [|reflexivity].
    apply in_map. exact Hfd. }
  unfold GeoJSONCorrector.correct_geojson in Hc. rewrite Hfc in Hc.
  destruct (eq_str (get d "type") "Feature") eqn:Hf.
  { apply eq_str_true in Hf. rewrite check_geometry_issues in Hval.
    injection Hval as Hval.
    unfold GeoJSONCorrector._correct_single_feature, try_except, bind in Hc.
    destruct (GeoJSONCorrector.correct_feature GeoJSONCorrector.new
                (VDict d) 0) as [[cf dt]|e] eqn:Hcf;
      injection Hc as _ <-; [|reflexivity].
    cbn -[count_fixes]. rewrite count_fixes_geometry. cbn.
    now rewrite (clean_feature_no_fix _ _ _ _ Hcf (Hfeat Hf) Hval). }
  destruct (in_strs (get d "type") GeoJSONCorrector.geometry_type_names).
  { unfold bind in Hval.
    assert (Hiss : Stated.issues_of (VDict d) 0 = []).
    { unfold Stated.issues_of.
      destruct (GeometryCorrector.validate_geometry (VDict d))
        as [[[|] m]|e]; try reflexivity. discriminate Hval. }
    unfold GeoJSONCorrector._correct_bare_geometry, try_except, bind in Hc.
    rewrite (valid_geometry_unchanged _ _ Hiss) in Hc.
    now injection Hc as _ <-. }
  now injection Hc as _ <-.
Qed.

(** The issues of a run of features: one per invalid geometry, at
    increasing positions within the run. *)
Lemma issues_of_features_shape (fs : list dict) :
  forall idx,
    exists l,
      Stated.issues_of_features Stated.issues_of_truthy idx fs
      = map invalid_at l
      /\ StronglySorted lt (map fst l)
      /\ Forall (fun p => idx <= fst p /\ fst p < idx + List.length fs) l.
Proof.
  induction fs as [|f fs IH]; intro idx; simpl.
  - exists []. repeat split; constructor.
  - destruct (IH (S idx)) as (l & -> & Hs & Hb).
    assert (Hb' : Forall (fun p => idx <= fst p
                                   /\ fst p < idx + S (List.length fs)) l).
    { apply Forall_impl with (2 := Hb). intros p [H1 H2]. lia. }
    unfold Stated.issues_of_truthy at 1, Stated.issues_of.
    destruct (truthy (get f "geometry")); [|now exists l].
    destruct (GeometryCorrector.validate_geometry (get f "geometry"))
      as [[[|] m]|e]; try (now exists l).
    exists ((idx, m) :: l). split; [reflexivity|]. split.
    + simpl. constructor; [exact Hs|]. rewrite Forall_map.
      apply Forall_impl with (2 := Hb). intros p [H1 _]. simpl. lia.
    + constructor; [simpl; lia|exact Hb'].
Qed.

(** X19.  Whatever [validate_geojson_file] returns for a text that parses
    is a list of [geometry_invalid] issues whose feature indices increase
    strictly.  For a collection every index is below the number of
    features; for any other document there is at most one issue, at
    index 0. *)
Theorem X19_issue_indices (file_content : content) (text : string)
    (doc : value) (issues : list issue) :
  decode file_content = Ok text ->
  json_loads text = Ok doc ->
  validate_geojson_file file_content = Ok issues ->
  exists l,
    issues = map invalid_at l
    /\ StronglySorted lt (map fst l)
    /\ (forall d items,
           doc = VDict d -> get d "type" = VStr "FeatureCollection" ->
           iter (get_default d "features" (VList [])) = Ok items ->
           Forall (fun p => fst p < List.length items) l)
    /\ (forall d,
           doc = VDict d -> get d "type" <> VStr "FeatureCollection" ->
           List.length l <= 1 /\ Forall (fun p => fst p = 0) l).
Proof.
  intros Hdec Hload. unfold validate_geojson_file.
  rewrite Hdec. cbn [bind]. rewrite Hload.
  destruct doc as [| | | | | |d]; try discriminate.
  destruct (eq_str (get d "type") "FeatureCollection") eqn:Hfc.
  { apply eq_str_true in Hfc.
    destruct (iter (get_default d "features" (VList []))) as [items|] eqn:Hit;
      [|discriminate].
    cbn [bind]. intro Hval.
    destruct (validate_features_ok _ _ _ Hval) as [fds ->].
    rewrite validate_features_issues in Hval. injection Hval as <-.
    destruct (issues_of_features_shape fds 0) as (l & Hl & Hs & Hb).
    exists l. split; [exact Hl|]. split; [exact Hs|]. split.
    - intros d0 items0 Hd _ Hit0. injection Hd as <-.
      rewrite Hit in Hit0. injection Hit0 as <-.
      rewrite length_map. apply Forall_impl with (2 := Hb).
      intros p [_ H2]. exact H2.
    - intros d0 Hd Hn. injection Hd as <-. contradiction. }
  assert (Hone : forall g,
             exists l, Stated.issues_of g 0 = map invalid_at l
                       /\ StronglySorted lt (map fst l)
                       /\ List.length l <= 1 /\ Forall (fun p => fst p = 0) l).
  { intro g. unfold Stated.issues_of.
    destruct (GeometryCorrector.validate_geometry g) as [[[|] m]|e];
      try (exists []; repeat split; auto; constructor).
    exists [(0, m)]. repeat split; auto; repeat constructor. }
  assert (Hnone : exists l : list (nat * string),
             @nil issue = map invalid_at l
             /\ StronglySorted lt (map fst l)
             /\ List.length l <= 1 /\ Forall (fun p => fst p = 0) l)
    by (exists []; repeat split; auto; constructor).
  assert (Hfin : forall got,
             (exists l, got = map invalid_at l
                        /\ StronglySorted lt (map fst l)
                        /\ List.length l <= 1
                        /\ Forall (fun p => fst p = 0) l) ->
             Ok got = Ok issues ->
             exists l,
               issues = map invalid_at l
               /\ StronglySorted lt (map fst l)
               /\ (forall d0 items,
                      VDict d = VDict d0 ->
                      get d0 "type" = VStr "FeatureCollection" ->
                      iter (get_default d0 "features" (VList [])) = Ok items ->
                      Forall (fun p => fst p < List.length items) l)
               /\ (forall d0,
                      VDict d = VDict d0 ->
                      get d0 "type" <> VStr "FeatureCollection" ->
                      List.length l <= 1 /\ Forall (fun p => fst p = 0) l)).
  { intros got (l & -> & Hs & Hle & Hz) H. injection H as <-.
    exists l. split; [reflexivity|]. split; [exact Hs|]. split.
    - intros d0 items Hd Hty. injection Hd as <-.
      apply eq_str_true in Hty. congruence.
    - intros d0 _ _. now split. }
  destruct (eq_str (get d "type") "Feature").
  { rewrite check_geometry_issues. apply Hfin.
    unfold Stated.issues_of_truthy. simpl app.
    destruct (truthy (get d "geometry")); [apply Hone|exact Hnone]. }
  destruct (in_strs (get d "type") GeoJSONCorrector.geometry_type_names);
    [|apply Hfin; exact Hnone].
  unfold bind.
  destruct (validate_geometry_returns (VDict d)) as (b & m & Hv).
  pose proof (Hone (VDict d)) as Hg. unfold Stated.issues_of in Hg.
  rewrite Hv in *. destruct b; simpl; apply Hfin; exact Hg.
Qed.

(** X20.  The only ways [validate_geojson_file] raises on a text that
    parses: the document is not a mapping; or it is a FeatureCollection
    whose [features] cannot be iterated, or has an entry that is not a
    mapping, in which case the error is that of the first such entry and
    the issues found before it are lost. *)
Theorem X20_validate_failures (file_content : content) (text : string)
    (doc : value) (e : exn) :
  decode file_content = Ok text ->
  json_loads text = Ok doc ->
  (validate_geojson_file file_content = Raise e <->
   (is_dict doc = false /\ e = no_attribute doc "get")
   \/ (exists d,
          doc = VDict d
          /\ get d "type" = VStr "FeatureCollection"
          /\ (iter (get_default d "features" (VList [])) = Raise e
              \/ exists pre f post,
                  iter (get_default d "features" (VList []))
                  = Ok (map VDict pre ++ f :: post)%list
                  /\ is_dict f = false /\ e = no_attribute f "get"))).
Proof.
  intros Hdec Hload. unfold validate_geojson_file.
  rewrite Hdec. cbn [bind]. rewrite Hload.
  destruct doc as [|b|z|fl|s|l|d];
    try (split;
         [intro H; injection H as <-; left; now split
         |intros [[_ ->]|(d0 & H & _)]; [reflexivity|discriminate H]]).
  destruct (eq_str (get d "type") "FeatureCollection") eqn:Hfc.
  { apply eq_str_true in Hfc.
    destruct (iter (get_default d "features" (VList []))) as [items|e0] eqn:Hit;
      cbn [bind].
    - rewrite validate_features_raise. split.
      + intros (pre & f & post & -> & Hd & ->). right. exists d.
        split; [reflexivity|]. split; [exact Hfc|]. right.
        exists pre, f, post. now repeat split.
      + intros [[H _]|(d0 & Hd & _ & [H|(pre & f & post & H & Hf & ->)])];
          [discriminate H| |]; injection Hd as <-; rewrite Hit in H;
          [discriminate H|].
        injection H as ->. exists pre, f, post. now repeat split.
    - split.
      + intro H. injection H as <-. right. exists d.
        split; [reflexivity|]. split; [exact Hfc|]. left.
        rewrite Hit. reflexivity.
      + intros [[H _]|(d0 & Hd & _ & [H|(pre & f & post & H & _)])];
          [discriminate H| |]; injection Hd as <-; rewrite Hit in H;
          [now injection H as <-|discriminate H]. }
  assert (Hnot : get d "type" <> VStr "FeatureCollection").
  { intro H. apply eq_str_true in H. congruence. }
  assert (Hok : exists x,
             (if eq_str (get d "type") "Feature"
              then check_geometry (get d "geometry") 0 []
              else if in_strs (get d "type")
                        GeoJSONCorrector.geometry_type_names
              then
                '(is_valid, explanation) <-
                  GeometryCorrector.validate_geometry (VDict d) ;;
                if negb is_valid
                then Ok ([] ++ [geometry_invalid 0 explanation])%list
                else Ok []
              else Ok []) = Ok x).
  { destruct (eq_str (get d "type") "Feature").
    - rewrite check_geometry_issues. eauto.
    - destruct (in_strs (get d "type") GeoJSONCorrector.geometry_type_names);
        [|eauto].
      destruct (validate_geometry_returns (VDict d)) as ([|] & m & ->);
        simpl; eauto. }
  destruct Hok as [x ->]. split; [discriminate|].
  intros [[H _]|(d0 & H & Hty & _)]; [discriminate H|].
  injection H as <-. contradiction.
Qed.

(** X21.  [correct_geojson_file] on a text that is not JSON returns that
    text itself with a result whose counts are 0 and whose one error is
    "Invalid JSON: " followed by the parser's message.  On a text that
    decodes it raises only when the parser raises something other than a
    JSON error or when [correct_geojson] raises on the parsed document. *)
Theorem X21_correct_file_errors (file_content : content) (text : string) :
  decode file_content = Ok text ->
  (forall e,
      json_loads text = Raise e -> is_JSONDecodeError e = true ->
      correct_geojson_file file_content
      = Ok (text,
            mkResult 0 0 0 0 ["Invalid JSON: " ++ exn_str e] [] []))
  /\ (forall e,
         correct_geojson_file file_content = Raise e <->
         (json_loads text = Raise e /\ is_JSONDecodeError e = false)
         \/ (exists doc,
                json_loads text = Ok doc
                /\ GeoJSONCorrector.correct_geojson repr GeoJSONCorrector.new
                     doc = Raise e)).
Proof.
  intro Hdec. unfold correct_geojson_file. rewrite Hdec. cbn [bind].
  split.
  - intros e -> ->. reflexivity.
  - intro e. destruct (json_loads text) as [doc|e0].
    + destruct (GeoJSONCorrector.correct_geojson repr GeoJSONCorrector.new doc)
        as [[cd r]|e1] eqn:Hc; cbn [bind].
      * split; [discriminate|].
        intros [[H _]|(doc0 & H & Hr)]; [discriminate H|].
        injection H as <-. rewrite Hc in Hr. discriminate Hr.
      * split.
        -- intro H. injection H as <-. right. now exists doc.
        -- intros [[H _]|(doc0 & H & Hr)]; [discriminate H|].
           injection H as <-. rewrite Hc in Hr. now injection Hr as <-.
    + destruct (is_JSONDecodeError e0) eqn:Hj.
      * split; [discriminate|].
        intros [[H Hn]|(doc0 & H & _)]; [|discriminate H].
        injection H as <-. congruence.
      * split.
        -- intro H. injection H as <-. left. now split.
        -- intros [[H _]|(doc0 & H & _)]; [|discriminate H].
           now injection H as <-.
Qed.

End FacadeMore.

Lemma X18_clean_validation_no_geometry_fix_witness :
  Facade.validate_geojson_file (engine := Stub.engine)
    (codec := Sample.codec) (Text "point feature") = Ok []
  /\ exists out r,
      Facade.correct_geojson_file (engine := Stub.engine)
        (codec := Sample.codec) (Text "point feature") = Ok (out, r)
      /\ property_issues_fixed r = 1
      /\ geometry_issues_fixed r = 0.
Proof.
  split; [vm_compute; reflexivity|].
  do 2 eexists. split; [vm_compute; reflexivity|].
  split; [reflexivity|].
  eapply (@X18_clean_validation_no_geometry_fix Stub.engine Sample.codec
            (Text "point feature") "point feature"
            [("type", VStr "Feature");
             ("geometry", VDict [("type", VStr "Point")]);
             ("properties", VDict [("a", VStr "1")])]).
  - reflexivity.
  - reflexivity.
  - intros items H. discriminate H.
  - intros _. right. reflexivity.
  - vm_compute; reflexivity.
  - vm_compute; reflexivity.
Defined.

Lemma X19_issue_indices_witness :
  Facade.validate_geojson_file (engine := Stub.engine)
    (codec := Sample.codec) (Text "shapes")
  = Ok [geometry_invalid 1 "Self-intersection";
        geometry_invalid 3 "Self-intersection"]
  /\ exists l,
      [geometry_invalid 1 "Self-intersection";
       geometry_invalid 3 "Self-intersection"] = map invalid_at l
      /\ StronglySorted lt (map fst l).
Proof.
  split; [vm_compute; reflexivity|].
  destruct (@X19_issue_indices Stub.engine Sample.codec (Text "shapes")
              "shapes" Sample.shapes
              [geometry_invalid 1 "Self-intersection";
               geometry_invalid 3 "Self-intersection"]
              eq_refl eq_refl eq_refl) as (l & Hl & Hs & _).
  exists l. now split.
Defined.

Lemma X20_validate_failures_witness :
  Facade.validate_geojson_file (engine := Stub.engine)
    (codec := Sample.codec) (Text "mixed")
  = Raise (no_attribute (VInt 3) "get").
Proof.
  apply (proj2 (@X20_validate_failures Stub.engine Sample.codec
                  (Text "mixed") "mixed" Sample.mixed
                  (no_attribute (VInt 3) "get") eq_refl eq_refl)).
  right. eexists. split; [reflexivity|]. split; [reflexivity|]. right.
  exists [[("type", VStr "Feature");
           ("geometry", VDict [("type", VStr "Polygon")])]], (VInt 3), [].
  now repeat split.
Defined.

Lemma X21_correct_file_errors_witness :
  Facade.correct_geojson_file (engine := Stub.engine)
    (codec := Sample.codec) (Text "{oops")
  = Ok ("{oops",
        mkResult 0 0 0 0
          ["Invalid JSON: Expecting value: line 1 column 1 (char 0)"] [] [])
  /\ Facade.correct_geojson_file (engine := Stub.engine)
       (codec := Sample.codec) (Text "[]")
     = Raise (no_attribute (VList []) "get").
Proof.
  destruct (@X21_correct_file_errors Stub.engine Sample.codec
              (Text "{oops") "{oops" eq_refl) as [Hbad _].
  destruct (@X21_correct_file_errors Stub.engine Sample.codec
              (Text "[]") "[]" eq_refl) as [_ Hraise].
  split.
  - apply (Hbad (mkExn JSONDecodeError
                       "Expecting value: line 1 column 1 (char 0)"));
      reflexivity.
  - apply Hraise. right. exists (VList []). now split.
Defined.

(* ================================================================== *)
(** * The name of the corrected file                                    *)
(* ================================================================== *)

Section CorrectedFilename.

Import App.

Lemma endswith_app q s : endswith (q ++ s) s = true.
Proof.
  induction q as [|c q IH]; cbn [append].
  - destruct s; cbn [endswith]; now rewrite String.eqb_refl.
  - cbn [endswith]. now destruct (String.eqb (String c (q ++ s)) s).
Qed.

Lemma endswith_split s suffix :
  endswith s suffix = true -> exists p, s = p ++ suffix.
Proof.
  induction s as [|c s IH]; cbn [endswith].
  - destruct (String.eqb_spec EmptyString suffix) as [<-|]; [|discriminate].
    now exists EmptyString.
  - destruct (String.eqb_spec (String c s) suffix) as [<-|].
    + now exists EmptyString.
    + intro H. destruct (IH H) as [p ->]. now exists (String c p).
Qed.

Lemma prefix_refl s : String.prefix s s = true.
Proof.
  induction s as [|c s IH]; simpl; [reflexivity|].
  now destruct (ascii_dec c c).
Qed.

Lemma replace_from_skip_all old new :
  forall s k, String.length s <= k -> replace_from k s old new = EmptyString.
Proof.
  induction s as [|c s IH]; intros k Hk; simpl; [reflexivity|].
  simpl in Hk. destruct k as [|k]; [lia|]. apply IH. lia.
Qed.

Lemma append_nil_r s : s ++ EmptyString = s.
Proof. induction s; simpl; congruence. Qed.

Lemma append_assoc (a b c : string) : (a ++ b) ++ c = a ++ (b ++ c).
Proof. induction a; simpl; congruence. Qed.

(** When no occurrence of [old] can start inside a text and end inside a
    final [old], [replace] turns a final [old] into a final [new]. *)
Lemma replace_from_suffix (old new : string) :
  old <> EmptyString ->
  (forall p, 0 < String.length p -> String.length p < String.length old ->
             String.prefix old (p ++ old) = false) ->
  forall p k,
    k <= String.length p ->
    exists q, replace_from k (p ++ old) old new = q ++ new.
Proof.
  intros Hne Hclean. induction p as [|c p IH]; intros k Hk.
  - simpl in Hk. assert (k = 0) as -> by lia. simpl append.
    destruct old as [|a t]; [contradiction|].
    cbn [replace_from]. rewrite prefix_refl.
    rewrite replace_from_skip_all by (simpl; lia).
    exists EmptyString. now rewrite append_nil_r.
  - simpl append. cbn [replace_from]. destruct k as [|k].
    + destruct (String.prefix old (String c (p ++ old))) eqn:Hp.
      * assert (Hlen : String.length old - 1 <= String.length p).
        { destruct (Nat.lt_ge_cases (String.length (String c p))
                      (String.length old)) as [Hlt|Hge].
          - pose proof (Hclean (String c p)) as Hc. cbn [append] in Hc.
            rewrite Hc in Hp; [discriminate| |exact Hlt]. simpl. lia.
          - simpl in Hge. lia. }
        destruct (IH _ Hlen) as [q ->]. exists (new ++ q).
        now rewrite append_assoc.
      * destruct (IH 0) as [q Hq]; [lia|]. rewrite Hq.
        now exists (String c q).
    + simpl in Hk. apply IH. lia.
Qed.

Lemma prefix_cons a s1 b s2 :
  String.prefix (String a s1) (String b s2)
  = Ascii.eqb a b && String.prefix s1 s2.
Proof.
  simpl. destruct (ascii_dec a b) as [->|Hne].
  - now rewrite Ascii.eqb_refl.
  - apply Ascii.eqb_neq in Hne. now rewrite Hne.
Qed.

(** Settles [prefix old (p ++ old) = false] for a text [p] shorter than a
    literal [old]: character by character, until the first character of
    [old] meets a later one. *)
Ltac no_straddle p Hlt :=
  repeat (destruct p as [|? p];
          [cbn [append]; rewrite ?prefix_cons;
           repeat match goal with
                  | |- context [Ascii.eqb ?a ?b] =>
                      is_var b; destruct (Ascii.eqb a b)
                  end; reflexivity
          |simpl in Hlt; apply Nat.succ_lt_mono in Hlt]);
  now apply Nat.nlt_0_r in Hlt.

Lemma geojson_clean p :
  0 < String.length p -> String.length p < String.length ".geojson" ->
  String.prefix ".geojson" (p ++ ".geojson") = false.
Proof.
  intros Hpos Hlt. simpl in Hlt.
  destruct p as [|c1 p]; [simpl in Hpos; lia|]. clear Hpos.
  simpl in Hlt. apply Nat.succ_lt_mono in Hlt.
  no_straddle p Hlt.
Qed.

Lemma json_clean p :
  0 < String.length p -> String.length p < String.length ".json" ->
  String.prefix ".json" (p ++ ".json") = false.
Proof.
  intros Hpos Hlt. simpl in Hlt.
  destruct p as [|c1 p]; [simpl in Hpos; lia|]. clear Hpos.
  simpl in Hlt. apply Nat.succ_lt_mono in Hlt.
  no_straddle p Hlt.
Qed.

(** X22.  The download name always carries the marker: a name ending in
    [.geojson] becomes one ending in [_corrected.geojson], another name
    ending in [.json] becomes one ending in [_corrected.json], and any other
    name gets [_corrected.geojson] appended. *)
Theorem X22_corrected_filename (name : string) :
  (endswith name ".geojson" = true ->
   endswith (corrected_filename name) "_corrected.geojson" = true)
  /\ (endswith name ".geojson" = false -> endswith name ".json" = true ->
      endswith (corrected_filename name) "_corrected.json" = true)
  /\ (endswith name ".geojson" = false -> endswith name ".json" = false ->
      corrected_filename name = name ++ "_corrected.geojson").
Proof.
  unfold corrected_filename, replace. repeat split.
  - intro H. rewrite H. destruct (endswith_split _ _ H) as [p ->].
    destruct (@replace_from_suffix ".geojson" "_corrected.geojson"
                ltac:(discriminate) geojson_clean p 0 ltac:(lia)) as [q ->].
    apply endswith_app.
  - intros H1 H2. rewrite H1, H2. destruct (endswith_split _ _ H2) as [p ->].
    destruct (@replace_from_suffix ".json" "_corrected.json"
                ltac:(discriminate) json_clean p 0 ltac:(lia)) as [q ->].
    apply endswith_app.
  - intros H1 H2. now rewrite H1, H2.
Qed.

End CorrectedFilename.

(** Every [.json] in the name is replaced, not only the extension. *)
Lemma X22_corrected_filename_witness :
  App.corrected_filename "roads.json.json"
  = "roads_corrected.json_corrected.json"
  /\ App.endswith (App.corrected_filename "roads.json.json")
       "_corrected.json" = true
  /\ App.corrected_filename "parcels.geojson" = "parcels_corrected.geojson"
  /\ App.corrected_filename "data.txt" = "data.txt_corrected.geojson".
Proof.
  split; [reflexivity|]. split.
  - apply (proj1 (proj2 (X22_corrected_filename "roads.json.json")));
      reflexivity.
  - split; reflexivity.
Defined.

Lemma X23_corrected_collection_keys_witness :
  exists out r,
    GeoJSONCorrector.correct_geojson (engine := Stub.engine)
      (@repr Stub.codec) GeoJSONCorrector.new sample_collection
    = Ok (VDict out, r)
    /\ keys out = ["type"; "features"; "name"].
Proof.
  do 2 eexists. split; [vm_compute; reflexivity|].
  match eval cbv delta [sample_collection] in sample_collection with
  | VDict ?d =>
      eapply (@X23_corrected_collection_keys Stub.engine (@repr Stub.codec)
                GeoJSONCorrector.new d)
  end.
  - repeat constructor; simpl; intuition discriminate.
  - reflexivity.
  - vm_compute; reflexivity.
Defined.

Lemma X9_validate_agrees_with_correct_witness :
  GeometryCorrector.validate_geometry (engine := Stub.engine)
    (VDict [("type", VStr "Point")]) = Ok (true, "Valid")
  /\ GeometryCorrector.correct_geometry (engine := Stub.engine)
       (VDict [("type", VStr "Point")])
     = Ok (VDict [("type", VStr "Point")], false,
           "Geometry was already valid").
Proof.
  split; [reflexivity|].
  destruct (@X9_validate_agrees_with_correct Stub.engine
              (VDict [("type", VStr "Point")]))
    as (valid & explanation & Hv & _ & Hiff).
  apply Hiff. vm_compute in Hv. now injection Hv as <- _.
Defined.
